(** * pymodbus: the synchronous serial client (pymodbus/client/serial.py)

    A shallow embedding of [ModbusSerialClient]: the timing profile computed
    by the constructor, the connection state machine ([connect], [close],
    the [connected] property), [send], [recv] and the frame-boundary
    detection loop [_wait_for_data].

    Conventions of the embedding.
    - Python [int] is [Z]; [bytes] is [list byte]; [None]-able values are
      [option].
    - Python [float] is IEEE 754 binary64: a finite float is its exact
      rational value, every operation rounds the exact result to the
      nearest float (ties to even) and overflows to an infinity; the sign
      of a zero is not kept. The attributes of the client hold finite
      floats only: where the constructor of the code would store an
      infinity the embedding gives no client (outcome [NonFinite]). Times
      read from the clock are rationals.
    - Methods are computations in a state-and-exception monad over the
      client object ([self]) and the outside world (wall clock, serial
      line, pyserial port, log).
    - The [while] loop of [_wait_for_data] takes fuel; running out of fuel
      is a third outcome, distinct from returning and from raising.

    What is assumed of the world (pyserial and the [time] module, which are
    not part of pymodbus).
    - The clock advances only while the client sleeps or is blocked in a
      read; a [time.sleep(d)] lasts [d] or longer, never less.
    - Bytes reach the receive buffer, and the driver may drop the buffer,
      only while the clock advances: what the line does is a chronological
      list of events, each with the time at which it takes effect.
    - Opening the port and assigning [inter_byte_timeout] may raise any
      exception; [in_waiting], [read], [write] and [close] do not raise.
    - [read(n)] waits until [n] bytes are buffered or the read timeout of
      the port has elapsed, and hands over at most [n] bytes; the effect of
      [inter_byte_timeout] on a read is not modelled. *)

From Stdlib Require Import ZArith QArith Qround Qabs List Bool String Lia Lqa.
From Stdlib Require Import Strings.Byte.
Import ListNotations.

Local Open Scope Z_scope.

(** ** Python values *)

Definition bytes := list byte.

(** Python truthiness of an [int] and of a [bytes] object. *)
Definition truthy_int (n : Z) : bool := negb (n =? 0).

Definition truthy_bytes (b : bytes) : bool :=
  match b with [] => false | _ :: _ => true end.

(** [len(b)] *)
Definition len (b : bytes) : Z := Z.of_nat (List.length b).

(** Exceptions that can travel through the methods of the client.
    [BackendError name] stands for whatever the serial back-end raises
    (SerialException, ValueError, termios.error, OSError, ...): every one of
    them is an instance of [Exception]. The message of
    [ConnectionException] is [str(self)], which embeds the address of the
    object; it is not modelled. *)
Inductive Exception : Type :=
| ConnectionException
| ZeroDivisionError
| AttributeError
| ValueError
| OverflowError
| BackendError (name : string).

(** ** Python numbers *)

Module PyFloat.

(** A Python float: a finite binary64 by its value, an infinity, or a
    NaN. *)
Inductive float : Type :=
| Fin (value : Q)
| Inf (negative : bool)
| NaN.

(** Nearest integer, ties to the even one. *)
Definition round_half_even (x : Q) : Z :=
  let f := Qfloor x in
  match Qcompare (x - inject_Z f) (1 # 2) with
  | Lt => f
  | Gt => f + 1
  | Eq => if Z.even f then f else f + 1
  end.

(** [2 ** e] *)
Definition pow2 (e : Z) : Q :=
  if 0 <=? e then inject_Z (2 ^ e) else Qmake 1 (Z.to_pos (2 ^ (- e))).

(** The [k] with [2 ** k <= q < 2 ** (k + 1)], for [0 < q]. *)
Definition ilog2 (q : Q) : Z :=
  let k := Z.log2 (Qnum q) - Z.log2 (Z.pos (Qden q)) in
  if Qle_bool (pow2 k) q then k else k - 1.

(** The binary64 nearest to [q], for [0 < q]: 53 bits of mantissa, the unit
    in the last place no smaller than [2 ** -1074]; [None] when the result
    is [2 ** 1024] or more. *)
Definition nearest_pos (q : Q) : option Q :=
  let e := Z.max (ilog2 q - 52) (- 1074) in
  let v := (inject_Z (round_half_even (q / pow2 e)) * pow2 e)%Q in
  if Qle_bool (pow2 1024) v then None else Some (Qred v).

(** Rounding of an exact result to a float. *)
Definition nearest (q : Q) : float :=
  match Qnum q with
  | Z0 => Fin 0
  | Zpos _ =>
      match nearest_pos q with
      | Some v => Fin v
      | None => Inf false
      end
  | Zneg _ =>
      match nearest_pos (- q) with
      | Some v => Fin (- v)
      | None => Inf true
      end
  end.

Definition is_neg (q : Q) : bool := Qnum q <? 0.

(** [x + y] *)
Definition add (x y : float) : float :=
  match x, y with
  | NaN, _ | _, NaN => NaN
  | Fin a, Fin b => nearest (a + b)
  | Inf s, Fin _ | Fin _, Inf s => Inf s
  | Inf s, Inf t => if Bool.eqb s t then Inf s else NaN
  end.

(** [x * y] *)
Definition mul (x y : float) : float :=
  match x, y with
  | NaN, _ | _, NaN => NaN
  | Fin a, Fin b => nearest (a * b)
  | Inf s, Fin b | Fin b, Inf s =>
      if Qeq_bool b 0 then NaN else Inf (xorb s (is_neg b))
  | Inf s, Inf t => Inf (xorb s t)
  end.

(** [x / y] for a [y] that is not zero (Python raises on a zero first). *)
Definition div (x y : float) : float :=
  match x, y with
  | NaN, _ | _, NaN => NaN
  | Fin a, Fin b => nearest (a / b)
  | Fin _, Inf _ => Fin 0
  | Inf s, Fin b => Inf (xorb s (is_neg b))
  | Inf _, Inf _ => NaN
  end.

(** [x > y] *)
Definition gt (x y : float) : bool :=
  match x, y with
  | NaN, _ | _, NaN => false
  | Fin a, Fin b => negb (Qle_bool a b)
  | Inf s, Inf t => negb s && t
  | Inf s, Fin _ => negb s
  | Fin _, Inf t => t
  end.

(** [max(a, b)] of Python: [b] when [b > a], else [a]. *)
Definition max (a b : float) : float := if gt b a then b else a.

(** [round(x, 6)]: the float nearest to the decimal with six places that
    is nearest to the exact value of [x], ties to the even decimal. *)
Definition round6 (x : float) : float :=
  match x with
  | Fin q => nearest (Qmake (round_half_even (q * 1000000)) 1000000)
  | _ => x
  end.

(** The float written as the decimal [q] in the source. *)
Definition literal (q : Q) : float := nearest q.

(** The conversion of an int to a float, as [float(n)] and the mixed
    operations make it: OverflowError when the int is too large. *)
Definition of_int (n : Z) : Exception + float :=
  match nearest (inject_Z n) with
  | Inf _ => inl OverflowError
  | x => inr x
  end.

(** [x / n] for an int [n]: the int is converted first, and a zero divisor
    raises ZeroDivisionError. *)
Definition truediv (x : float) (n : Z) : Exception + float :=
  match of_int n with
  | inl e => inl e
  | inr d => if n =? 0 then inl ZeroDivisionError else inr (div x d)
  end.

End PyFloat.

(** A Python number: an int, or a float given by the decimal that denotes
    it ([Flt 1.5] is the float [1.5]). *)
Inductive Number : Type :=
| Int (n : Z)
| Flt (q : Q).

(** ** The data model *)

(** Modelled from the spec: TransactionState, the enumeration behind
    [ModbusTransactionState] (pymodbus/utilities.py is not part of the
    sources at hand). Only [IDLE] is named by serial.py. *)
Inductive ModbusTransactionState : Type :=
| IDLE | SENDING | WAITING_FOR_REPLY | RETRYING | FAILED | COMPLETE.

(** [CommParams] as filled in by the constructor. *)
Record CommParams : Type := mkCommParams {
  host : string;
  baudrate : Z;
  bytesize : Z;
  parity : string;
  stopbits : Number;
  handle_local_echo : bool;
  comm_name : string;
  reconnect_delay : Q;
  reconnect_delay_max : Q;
  timeout_connect : Q
}.

(** The pyserial object held in [self.socket]: its settings. The bytes it
    buffers belong to the world, see [World]. *)
Record Serial : Type := mkSerial {
  ser_port : string;
  ser_timeout : Q;
  ser_bytesize : Z;
  ser_stopbits : Number;
  ser_baudrate : Z;
  ser_parity : string;
  ser_exclusive : bool;
  ser_inter_byte_timeout : option Q
}.

(** The attributes of a [ModbusSerialClient] instance. [state],
    [inter_byte_timeout] and [silent_interval] start from the class-level
    defaults (IDLE, 0, 0). *)
Record ModbusSerialClient : Type := mkClient {
  comm_params : CommParams;
  state : ModbusTransactionState;
  socket : option Serial;
  last_frame_end : option Q;
  _t0 : Q;
  _recv_interval : Q;
  inter_byte_timeout : Q;
  silent_interval : Q
}.

(** ** The constructor: the timing profile *)

(** The keyword arguments of [__init__] that serial.py itself uses; the
    remaining ones (framer, retries, ...) are handed to the base class. *)
Record InitArgs : Type := mkInitArgs {
  arg_port : string;
  arg_baudrate : Z;
  arg_bytesize : Z;
  arg_parity : string;
  arg_stopbits : Number;
  arg_handle_local_echo : bool;
  arg_name : string;
  arg_reconnect_delay : Q;
  arg_reconnect_delay_max : Q;
  arg_timeout : Q
}.

(** The defaults of the signature, for a given port. *)
Definition default_args (port : string) : InitArgs :=
  mkInitArgs port 19200 8 "N" (Int 1) false "comm" (1 # 10) 300 3.

(** How the constructor can end without a client: an exception, or floats
    that are not finite (the code then builds a client that holds an
    infinity, which [ModbusSerialClient] cannot express). *)
Inductive Failure : Type :=
| Raised (e : Exception)
| NonFinite.

(** [float(1 + bytesize + stopbits)]: the sum is an int when [stopbits] is
    one; with a float [stopbits] the int [1 + bytesize] is converted and the
    sum is a float already. *)
Definition char_bits (bytesize : Z) (stopbits : Number)
  : Exception + PyFloat.float :=
  match stopbits with
  | Int s => PyFloat.of_int (1 + bytesize + s)
  | Flt s =>
      match PyFloat.of_int (1 + bytesize) with
      | inl e => inl e
      | inr b => inr (PyFloat.add b (PyFloat.literal s))
      end
  end.

(** The four floats of the profile: [_t0], [_recv_interval],
    [inter_byte_timeout], [silent_interval]. *)
Definition profile (a : InitArgs)
  : Exception
    + (PyFloat.float * PyFloat.float * PyFloat.float * PyFloat.float) :=
  match char_bits (arg_bytesize a) (arg_stopbits a) with
  | inl e => inl e
  | inr bits =>
      match PyFloat.truediv bits (arg_baudrate a) with
      | inl e => inl e
      | inr t0 =>
          (* Check every 4 bytes / 2 registers if the reading is ready;
             a minimum of 1ms for high baudrates *)
          let recv_interval :=
            PyFloat.max (PyFloat.mul t0 (PyFloat.Fin 4))
              (PyFloat.literal 0.001) in
          let '(ibt, silent) :=
            if arg_baudrate a >? 19200
            then (PyFloat.Fin 0,
                  PyFloat.div (PyFloat.literal 1.75) (PyFloat.Fin 1000))
            else (PyFloat.mul (PyFloat.literal 1.5) t0,
                  PyFloat.mul (PyFloat.literal 3.5) t0) in
          inr (t0, recv_interval, ibt, PyFloat.round6 silent)
      end
  end.

Definition __init__ (a : InitArgs) : Failure + ModbusSerialClient :=
  let params :=
    mkCommParams (arg_port a) (arg_baudrate a) (arg_bytesize a) (arg_parity a)
      (arg_stopbits a) (arg_handle_local_echo a) (arg_name a)
      (arg_reconnect_delay a) (arg_reconnect_delay_max a) (arg_timeout a) in
  match profile a with
  | inl e => inl (Raised e)
  | inr (PyFloat.Fin t0, PyFloat.Fin recv_interval, PyFloat.Fin ibt,
         PyFloat.Fin silent) =>
      inr (mkClient params IDLE None None t0 recv_interval ibt silent)
  | inr _ => inl NonFinite
  end.

(** ** The outside world *)

(** What the far end of the line does: bytes arrive, or the driver drops
    its input buffer (overrun, the adapter being re-enumerated). *)
Inductive LineEvent : Type :=
| Arrive (data : bytes)
| Reset.

(** The two generations of the pyserial API that [_in_waiting] copes with:
    the [in_waiting] property, or only the [inWaiting()] method. *)
Inductive SerialApi : Type := PropertyApi | MethodApi.

(** Accesses to the serial device, in the order they are made. *)
Inductive Access : Type :=
| Open (port : string) (exclusive : bool)
| Configure (inter_byte : Q)
| Close
| InWaiting (n : Z)
| Read (size : Z) (got : bytes)
| Write (data : bytes).

(** Records written through [pymodbus.logging.Log]. *)
Inductive LogRecord : Type :=
| LogError (msg : Exception)
| LogWarning (text : string) (data : bytes).

(** The world as the client sees it.
    - [now]: what [time.time()] returns; [lag]: by how much the successive
      [time.sleep] calls oversleep, in microseconds.
    - [rx]: the receive buffer of the port; [line]: what is still to happen
      on the line, each event with the time at which it reaches [rx], in
      chronological order; [tx]: the bytes written so far.
    - [held]: the port is open in this process.
    - [open_fault], [config_fault]: what the back-end raises when the port
      is opened (held by another process, no such device, ...) and when
      [inter_byte_timeout] is assigned.
    - [pyserial_api]: the API of the installed back-end.
    - [write_report]: what [write] returns for a payload.
    - [accesses], [logged]: the history, newest first. *)
Record World : Type := mkWorld {
  now : Q;
  lag : list N;
  rx : bytes;
  line : list (Q * LineEvent);
  tx : bytes;
  held : bool;
  open_fault : option Exception;
  config_fault : option Exception;
  pyserial_api : SerialApi;
  write_report : bytes -> option Z;
  accesses : list Access;
  logged : list LogRecord
}.

Definition apply_event (ev : LineEvent) (buf : bytes) : bytes :=
  match ev with
  | Arrive data => buf ++ data
  | Reset => []
  end.

(** The buffer and the pending events once the clock shows [t]. *)
Fixpoint deliver (t : Q) (buf : bytes) (l : list (Q * LineEvent))
  : bytes * list (Q * LineEvent) :=
  match l with
  | [] => (buf, [])
  | (te, ev) :: rest =>
      if Qle_bool te t then deliver t (apply_event ev buf) rest
      else (buf, l)
  end.

Definition later (a b : Q) : Q := if Qle_bool a b then b else a.

(** A blocking read of [n] bytes that gives up at [deadline]: the clock,
    the buffer and the pending events when it stops waiting. *)
Fixpoint await (n : nat) (deadline t : Q) (buf : bytes)
  (l : list (Q * LineEvent)) : Q * bytes * list (Q * LineEvent) :=
  if (n <=? List.length buf)%nat then (t, buf, l)
  else
    match l with
    | [] => (later t deadline, buf, [])
    | (te, ev) :: rest =>
        if Qle_bool te deadline
        then await n deadline (later t te) (apply_event ev buf) rest
        else (later t deadline, buf, l)
    end.

Definition oversleep (l : list N) : Q :=
  match l with
  | [] => 0
  | us :: _ => Z.of_N us # 1000000
  end.

(** The world after a [time.sleep(d)] with [0 <= d]. *)
Definition nap (d : Q) (w : World) : World :=
  let t := (now w + d + oversleep (lag w))%Q in
  mkWorld t (tl (lag w))
    (fst (deliver t (rx w) (line w))) (snd (deliver t (rx w) (line w)))
    (tx w) (held w) (open_fault w) (config_fault w) (pyserial_api w)
    (write_report w) (accesses w) (logged w).

Definition set_accesses (w : World) (l : list Access) : World :=
  mkWorld (now w) (lag w) (rx w) (line w) (tx w) (held w) (open_fault w)
    (config_fault w) (pyserial_api w) (write_report w) l (logged w).

Definition access (a : Access) (w : World) : World :=
  set_accesses w (a :: accesses w).

Definition set_held (w : World) (b : bool) : World :=
  mkWorld (now w) (lag w) (rx w) (line w) (tx w) b (open_fault w)
    (config_fault w) (pyserial_api w) (write_report w) (accesses w)
    (logged w).

Definition log_record (r : LogRecord) (w : World) : World :=
  mkWorld (now w) (lag w) (rx w) (line w) (tx w) (held w) (open_fault w)
    (config_fault w) (pyserial_api w) (write_report w) (accesses w)
    (r :: logged w).

(** The world after the port has waited for, and handed over, up to [size]
    bytes; [timeout] is the read timeout of the port. *)
Definition read_world (timeout : Q) (size : Z) (w : World) : bytes * World :=
  let n := Z.to_nat size in
  let r := await n (now w + timeout)%Q (now w) (rx w) (line w) in
  let got := firstn n (snd (fst r)) in
  (got,
   mkWorld (fst (fst r)) (lag w) (skipn n (snd (fst r))) (snd r) (tx w)
     (held w) (open_fault w) (config_fault w) (pyserial_api w)
     (write_report w) (Read size got :: accesses w) (logged w)).

Definition write_world (data : bytes) (w : World) : World :=
  mkWorld (now w) (lag w) (rx w) (line w) (tx w ++ data) (held w)
    (open_fault w) (config_fault w) (pyserial_api w) (write_report w)
    (Write data :: accesses w) (logged w).

(** ** The monad of the methods *)

Record St : Type := mkSt { self : ModbusSerialClient; world : World }.

Inductive Outcome (A : Type) : Type :=
| Return (a : A)
| Raise (e : Exception)
| OutOfFuel.

Arguments Return {A} a.
Arguments Raise {A} e.
Arguments OutOfFuel {A}.

Definition M (A : Type) : Type := St -> Outcome A * St.

Definition ret {A} (a : A) : M A := fun s => (Return a, s).

Definition raise {A} (e : Exception) : M A := fun s => (Raise e, s).

Definition bind {A B} (m : M A) (k : A -> M B) : M B :=
  fun s =>
    match m s with
    | (Return a, s') => k a s'
    | (Raise e, s') => (Raise e, s')
    | (OutOfFuel, s') => (OutOfFuel, s')
    end.

(** [try: body except Exception as msg: handler] *)
Definition try_except {A} (body : M A) (handler : Exception -> M A) : M A :=
  fun s =>
    match body s with
    | (Raise e, s') => handler e s'
    | r => r
    end.

Declare Scope py_scope.
Delimit Scope py_scope with py.

Notation "x <- c1 ;; c2" := (bind c1 (fun x => c2))
  (at level 100, c1 at next level, right associativity) : py_scope.
Notation "c1 ;; c2" := (bind c1 (fun _ => c2))
  (at level 100, right associativity) : py_scope.

Local Open Scope py_scope.

Definition get_self : M ModbusSerialClient := fun s => (Return (self s), s).

Definition get_world : M World := fun s => (Return (world s), s).

Definition put_world (w : World) : M unit :=
  fun s => (Return tt, mkSt (self s) w).

Definition put_self (c : ModbusSerialClient) : M unit :=
  fun s => (Return tt, mkSt c (world s)).

Definition set_socket (c : ModbusSerialClient) (v : option Serial)
  : ModbusSerialClient :=
  mkClient (comm_params c) (state c) v (last_frame_end c) (_t0 c)
    (_recv_interval c) (inter_byte_timeout c) (silent_interval c).

Definition set_last_frame_end (c : ModbusSerialClient) (v : option Q)
  : ModbusSerialClient :=
  mkClient (comm_params c) (state c) (socket c) v (_t0 c) (_recv_interval c)
    (inter_byte_timeout c) (silent_interval c).

Definition set_state (c : ModbusSerialClient) (v : ModbusTransactionState)
  : ModbusSerialClient :=
  mkClient (comm_params c) v (socket c) (last_frame_end c) (_t0 c)
    (_recv_interval c) (inter_byte_timeout c) (silent_interval c).

(** ** The library calls *)

(** [time.time()] *)
Definition time_time : M Q := w <- get_world ;; ret (now w).

(** [time.sleep(secs)]: ValueError on a negative length. *)
Definition time_sleep (secs : Q) : M unit :=
  if Qle_bool 0 secs
  then w <- get_world ;; put_world (nap secs w)
  else raise ValueError.

(** [serial.serial_for_url(url, timeout=.., bytesize=.., stopbits=..,
    baudrate=.., parity=.., exclusive=..)] *)
Definition serial_for_url (url : string) (timeout : Q)
  (bytesize : Z) (stopbits : Number) (baudrate : Z) (parity : string)
  (exclusive : bool) : M Serial :=
  w <- get_world ;;
  put_world (access (Open url exclusive) w) ;;
  match open_fault w with
  | Some e => raise e
  | None =>
      w <- get_world ;;
      put_world (set_held w true) ;;
      ret (mkSerial url timeout bytesize stopbits baudrate parity exclusive
             None)
  end.

(** [port.inter_byte_timeout = v], which reconfigures the open port. *)
Definition Serial_set_inter_byte_timeout (port : Serial) (v : Q) : M Serial :=
  w <- get_world ;;
  put_world (access (Configure v) w) ;;
  match config_fault w with
  | Some e => raise e
  | None =>
      ret (mkSerial (ser_port port) (ser_timeout port) (ser_bytesize port)
             (ser_stopbits port) (ser_baudrate port) (ser_parity port)
             (ser_exclusive port) (Some v))
  end.

(** [port.close()]: releases the device; it does not raise. *)
Definition Serial_close : M unit :=
  w <- get_world ;; put_world (set_held (access Close w) false).

(** [port.in_waiting], [port.inWaiting()] *)
Definition Serial_in_waiting : M Z :=
  w <- get_world ;;
  put_world (access (InWaiting (len (rx w))) w) ;;
  ret (len (rx w)).

(** [port.read(size)] *)
Definition Serial_read (port : Serial) (size : Z) : M bytes :=
  w <- get_world ;;
  put_world (snd (read_world (ser_timeout port) size w)) ;;
  ret (fst (read_world (ser_timeout port) size w)).

(** [port.write(data)] *)
Definition Serial_write (data : bytes) : M (option Z) :=
  w <- get_world ;;
  put_world (write_world data w) ;;
  ret (write_report w data).

(** [Log.error("{}", msg)] and [Log.warning(text, data, ":hex")] *)
Definition Log_error (msg : Exception) : M unit :=
  w <- get_world ;; put_world (log_record (LogError msg) w).

Definition Log_warning (text : string) (data : bytes) : M unit :=
  w <- get_world ;; put_world (log_record (LogWarning text data) w).

(** ** The methods of [ModbusSerialClient] *)

Definition is_some {A} (o : option A) : bool :=
  match o with Some _ => true | None => false end.

(** [close]: close the port if there is one, forget it in any case. *)
Definition close : M unit :=
  c <- get_self ;;
  (if is_some (socket c) then Serial_close else ret tt) ;;
  c <- get_self ;;
  put_self (set_socket c None).

Definition connect : M bool :=
  c <- get_self ;;
  if is_some (socket c) then ret true
  else
    try_except
      (c <- get_self ;;
       port <- serial_for_url (host (comm_params c))
                 (timeout_connect (comm_params c))
                 (bytesize (comm_params c)) (stopbits (comm_params c))
                 (baudrate (comm_params c)) (parity (comm_params c)) true ;;
       c <- get_self ;;
       put_self (set_socket c (Some port)) ;;
       c <- get_self ;;
       port <- Serial_set_inter_byte_timeout port (inter_byte_timeout c) ;;
       c <- get_self ;;
       put_self (set_socket c (Some port)) ;;
       c <- get_self ;;
       put_self (set_last_frame_end c None))
      (fun msg => Log_error msg ;; close) ;;
    c <- get_self ;;
    ret (is_some (socket c)).

(** The [connected] property. *)
Definition connected : M bool := connect.

(** [_in_waiting]: [hasattr] evaluates the property once before [getattr]
    evaluates it again; without the property the old method is called.
    On [None] neither attribute exists. *)
Definition _in_waiting : M Z :=
  c <- get_self ;;
  match socket c with
  | None => raise AttributeError
  | Some _ =>
      w <- get_world ;;
      match pyserial_api w with
      | PropertyApi => Serial_in_waiting ;; Serial_in_waiting
      | MethodApi => Serial_in_waiting
      end
  end.

(** The [while condition(start):] loop of [_wait_for_data], one unit of
    fuel per evaluation of the condition. *)
Fixpoint wait_loop (fuel : nat) (start timeout : Q) (size : Z)
  (more_data : bool) : M Z :=
  match fuel with
  | O => fun s => (OutOfFuel, s)
  | S fuel' =>
      t <- time_time ;;
      if Qle_bool (t - start) timeout then
        available <- _in_waiting ;;
        if (more_data && negb (truthy_int available))
           || (more_data && (available =? size))
        then ret size
        else
          let changed := truthy_int available && negb (available =? size) in
          let more_data := if changed then true else more_data in
          let size := if changed then available else size in
          c <- get_self ;;
          time_sleep (_recv_interval c) ;;
          wait_loop fuel' start timeout size more_data
      else ret size
  end.

Definition _wait_for_data (fuel : nat) : M Z :=
  c <- get_self ;;
  let timeout := timeout_connect (comm_params c) in
  start <- time_time ;;
  wait_loop fuel start timeout 0 false.

Definition recv (fuel : nat) (size : option Z) : M bytes :=
  c <- get_self ;;
  match socket c with
  | None => raise ConnectionException
  | Some _ =>
      size <- match size with
              | None => _wait_for_data fuel
              | Some n => ret n
              end ;;
      waiting <- _in_waiting ;;
      (if size >? waiting then _wait_for_data fuel ;; ret tt else ret tt) ;;
      c <- get_self ;;
      match socket c with
      | None => raise AttributeError
      | Some port => Serial_read port size
      end
  end.

Section Inherited.

(** [_start_send] is inherited from [ModbusBaseSyncClient], whose source
    is not at hand: a hook that moves the transaction state. *)
Variable _start_send : ModbusTransactionState -> ModbusTransactionState.

Definition send (request : bytes) : M Z :=
  c <- get_self ;;
  put_self (set_state c (_start_send (state c))) ;;
  c <- get_self ;;
  match socket c with
  | None => raise ConnectionException
  | Some port =>
      if truthy_bytes request then
        waitingbytes <- _in_waiting ;;
        (if truthy_int waitingbytes then
           result <- Serial_read port waitingbytes ;;
           Log_warning "Cleanup recv buffer before send: {}" result
         else ret tt) ;;
        size <- Serial_write request ;;
        ret (match size with None => 0 | Some n => n end)
      else ret 0
  end.

End Inherited.

(** [is_socket_open] *)
Definition is_socket_open : M bool :=
  c <- get_self ;;
  w <- get_world ;;
  ret (if is_some (socket c) then held w else false).

(** ** A simulated port, for running the methods *)

Definition quiet_world : World :=
  mkWorld 0 [] [] [] [] false None None PropertyApi
    (fun data => Some (len data)) [] [].

Definition with_line (w : World) (l : list (Q * LineEvent)) : World :=
  mkWorld (now w) (lag w) (rx w) l (tx w) (held w) (open_fault w)
    (config_fault w) (pyserial_api w) (write_report w) (accesses w)
    (logged w).

Definition with_rx (w : World) (buf : bytes) : World :=
  mkWorld (now w) (lag w) buf (line w) (tx w) (held w) (open_fault w)
    (config_fault w) (pyserial_api w) (write_report w) (accesses w)
    (logged w).

Definition with_open_fault (w : World) (e : option Exception) : World :=
  mkWorld (now w) (lag w) (rx w) (line w) (tx w) (held w) e
    (config_fault w) (pyserial_api w) (write_report w) (accesses w)
    (logged w).

Definition with_config_fault (w : World) (e : option Exception) : World :=
  mkWorld (now w) (lag w) (rx w) (line w) (tx w) (held w) (open_fault w)
    e (pyserial_api w) (write_report w) (accesses w) (logged w).

(** A client built with the default arguments but for [timeout]. *)
Definition client_with_timeout (timeout : Q) : ModbusSerialClient :=
  Eval vm_compute in
  match __init__ (mkInitArgs "/dev/ttyUSB0" 19200 8 "N" (Int 1) false "comm"
                    (1 # 10) 300 timeout) with
  | inr c => c
  | inl _ =>
      mkClient (mkCommParams "" 0 0 "" (Int 0) false "" 0 0 0) IDLE None None
        0 0 0 0
  end.

(** The same client once [connect] has succeeded in [w]. *)
Definition connected_state (timeout : Q) (w : World) : St :=
  snd (connect (mkSt (client_with_timeout timeout) w)).

Definition x01 : byte := "001"%byte.
Definition x02 : byte := "002"%byte.
Definition x03 : byte := "003"%byte.
Definition x04 : byte := "004"%byte.
Definition x05 : byte := "005"%byte.
Definition x06 : byte := "006"%byte.

(** An open port on a line that stays silent; the timeout is 10 ms. *)
Definition idle_state : St := connected_state (1 # 100) quiet_world.

(** An open port on which a frame of three bytes arrives at once, 10 ms
    after the start; the timeout is the default, 3 s. *)
Definition burst_state : St :=
  connected_state 3
    (with_line quiet_world [((1 # 100)%Q, Arrive [x01; x02; x03])]).

(** An open port on which six bytes arrive one by one, one per poll
    interval (1/480 s at 19200 baud, less a rounding error), each midway
    between two polls; the timeout is 10 ms. *)
Definition trickle_state : St :=
  connected_state (1 # 100)
    (with_line quiet_world
       [((1 # 960)%Q, Arrive [x01]); ((3 # 960)%Q, Arrive [x02]);
        ((5 # 960)%Q, Arrive [x03]); ((7 # 960)%Q, Arrive [x04]);
        ((9 # 960)%Q, Arrive [x05]); ((11 # 960)%Q, Arrive [x06])]).

(** An open port on which a frame of three bytes arrives at once, 10 ms
    after the start, with a timeout of 10.1 ms: the frame is there when the
    timeout ends the wait, and no poll has seen it. *)
Definition late_state : St :=
  connected_state (101 # 10000)
    (with_line quiet_world [((1 # 100)%Q, Arrive [x01; x02; x03])]).

(** An open port with two bytes in its buffer, on a line that stays
    silent; the timeout is 10 ms. *)
Definition short_state : St :=
  connected_state (1 # 100) (with_rx quiet_world [x01; x02]).

(** ** The frame-boundary detector, as the specification words it *)

(** One poll: the time elapsed since the wait began, and the number of
    buffered bytes. *)
Definition Poll : Type := (Q * Z)%type.

(** The detector tracks whether a non-zero count was ever seen and the last
    observed count. At each poll: past the timeout it aborts with what was
    accumulated; with data seen and the buffer now empty or unchanged the
    frame is complete; otherwise the new count is recorded and polling goes
    on. The answer is the number of polls that were followed by a sleep,
    with the count returned; [None] when the polls run out first. *)
Fixpoint frame_boundary (timeout : Q) (seen : bool) (last : Z)
  (polls : list Poll) : option (nat * Z) :=
  match polls with
  | [] => None
  | (elapsed, count) :: rest =>
      if negb (Qle_bool elapsed timeout) then Some (O, last)
      else if seen && ((count =? 0) || (count =? last)) then Some (O, last)
      else
        match frame_boundary timeout (seen || negb (count =? 0)) count rest
        with
        | Some (k, n) => Some (S k, n)
        | None => None
        end
  end.

(** What the loop answers when the detector answers [r]. *)
Definition outcome_of (r : option (nat * Z)) : Outcome Z :=
  match r with
  | Some (_, n) => Return n
  | None => OutOfFuel
  end.

(** The world after [k] sleeps of length [d]. *)
Fixpoint naps (d : Q) (k : nat) (w : World) : World :=
  match k with
  | O => w
  | S k' => naps d k' (nap d w)
  end.

(** What [n] successive polls, [d] apart, observe from [w] on; [start] is
    the time at which the wait began. *)
Fixpoint polls (d start : Q) (w : World) (n : nat) : list Poll :=
  match n with
  | O => []
  | S n' => ((now w - start)%Q, len (rx w)) :: polls d start (nap d w) n'
  end.

(** The world after one [_in_waiting] on an open port. *)
Definition polled (w : World) : World :=
  match pyserial_api w with
  | PropertyApi =>
      access (InWaiting (len (rx w))) (access (InWaiting (len (rx w))) w)
  | MethodApi => access (InWaiting (len (rx w))) w
  end.

(** Fuel that suffices for a wait of [timeout] polled every [d]. *)
Definition enough_fuel (timeout d : Q) : nat :=
  S (Z.to_nat (Qfloor (timeout / d) + 1)).

(** ** States of the transport *)

Definition Connected (s : St) : Prop := socket (self s) <> None.

Definition Disconnected (s : St) : Prop := socket (self s) = None.

(** A client as the constructor leaves it, whatever happened to its
    connection and transaction state since. *)
Definition Constructed (c : ModbusSerialClient) : Prop :=
  exists a c0,
    __init__ a = inr c0 /\
    comm_params c = comm_params c0 /\ _t0 c = _t0 c0 /\
    _recv_interval c = _recv_interval c0 /\
    inter_byte_timeout c = inter_byte_timeout c0 /\
    silent_interval c = silent_interval c0.

(** The line delivers no byte at all. *)
Definition no_bytes (ev : Q * LineEvent) : Prop :=
  match snd ev with
  | Arrive data => data = []
  | Reset => True
  end.

Definition Silent (w : World) : Prop :=
  rx w = [] /\ Forall no_bytes (line w).

(** The counts of successive polls keep changing: the buffer may stay empty
    while nothing has arrived, and from the first byte on every count is
    larger than the one before. [last] is the count before the first of
    them. *)
Fixpoint growing (last : Z) (counts : list Z) : bool :=
  match counts with
  | [] => true
  | c :: rest =>
      ((last <? c) || ((last =? 0) && (c =? 0))) && growing c rest
  end.

(** A source that only sends: no event of its line drops the buffer. *)
Definition arrival (ev : Q * LineEvent) : Prop :=
  match snd ev with
  | Arrive _ => True
  | Reset => False
  end.

(** All the bytes a line is going to deliver. *)
Fixpoint payload (l : list (Q * LineEvent)) : bytes :=
  match l with
  | [] => []
  | (_, Arrive data) :: rest => data ++ payload rest
  | (_, Reset) :: rest => payload rest
  end.

(** The counts seen by the first [n] polls of a wait that starts in [w]. *)
Definition counts (d : Q) (w : World) (n : nat) : list Z :=
  map snd (polls d (now w) w n).

(** The time elapsed between [w] and the poll that follows [j] sleeps. *)
Definition elapsed (d : Q) (w : World) (j : nat) : Q :=
  (now (naps d j w) - now w)%Q.

(** ** Auxiliary descriptions of the states reached *)

(** The port object as [serial_for_url] returns it for the client [c], and
    once [inter_byte_timeout] has been assigned. *)
Definition opened (c : ModbusSerialClient) : Serial :=
  mkSerial (host (comm_params c)) (timeout_connect (comm_params c))
    (bytesize (comm_params c)) (stopbits (comm_params c))
    (baudrate (comm_params c)) (parity (comm_params c)) true None.

Definition configured (c : ModbusSerialClient) : Serial :=
  mkSerial (host (comm_params c)) (timeout_connect (comm_params c))
    (bytesize (comm_params c)) (stopbits (comm_params c))
    (baudrate (comm_params c)) (parity (comm_params c)) true
    (Some (inter_byte_timeout c)).

(** The accesses and the log record of the clean-up that [send] makes of a
    receive buffer [buf]. *)
Definition cleanup_accesses (buf : bytes) : list Access :=
  match buf with
  | [] => []
  | _ :: _ => [Read (len buf) buf]
  end.

Definition cleanup_records (buf : bytes) : list LogRecord :=
  match buf with
  | [] => []
  | _ :: _ => [LogWarning "Cleanup recv buffer before send: {}" buf]
  end.

(** The world after the clean-up of the receive buffer that precedes a
    write. *)
Definition cleaned (port : Serial) (w : World) : World :=
  match rx w with
  | [] => polled w
  | _ :: _ =>
      log_record (LogWarning "Cleanup recv buffer before send: {}"
                    (fst (read_world (ser_timeout port) (len (rx w))
                            (polled w))))
        (snd (read_world (ser_timeout port) (len (rx w)) (polled w)))
  end.

(** ** Vocabulary for the further properties *)

(** The fields of a client that only the constructor writes. *)
Definition same_profile (c c' : ModbusSerialClient) : Prop :=
  comm_params c' = comm_params c /\ _t0 c' = _t0 c /\
  _recv_interval c' = _recv_interval c /\
  inter_byte_timeout c' = inter_byte_timeout c /\
  silent_interval c' = silent_interval c.

(** An access that only asks how many bytes are buffered. *)
Definition is_query (a : Access) : Prop :=
  match a with
  | InWaiting _ => True
  | _ => False
  end.

(** From [w] to [w'] the device was only asked for its byte count: nothing
    was read, written, opened, closed or logged. *)
Definition only_queries (w w' : World) : Prop :=
  tx w' = tx w /\ held w' = held w /\ logged w' = logged w /\
  exists qs, accesses w' = qs ++ accesses w /\ Forall is_query qs.

(** The accesses of one [_in_waiting] that finds [n] bytes. *)
Definition query_accesses (api : SerialApi) (n : Z) : list Access :=
  match api with
  | PropertyApi => [InWaiting n; InWaiting n]
  | MethodApi => [InWaiting n]
  end.

(** An open port on which two bytes arrive after 10 ms and a third one
    10 ms later; the timeout is the default, 3 s. *)
Definition paused_state : St :=
  connected_state 3
    (with_line quiet_world
       [((1 # 100)%Q, Arrive [x01; x02]); ((2 # 100)%Q, Arrive [x03])]).

(** A computation keeps a relation between the state it starts from and the
    state it ends in, whatever its outcome. *)
Definition preserves {A} (R : St -> St -> Prop) (m : M A) : Prop :=
  forall s, R s (snd (m s)).

(** The client object is the same and the device was only queried. *)
Definition untouched (s s' : St) : Prop :=
  self s' = self s /\ only_queries (world s) (world s').

(** On a line that only delivers bytes, no byte is lost: the buffer
    followed by what the line still has to deliver is the same stream. *)
Definition conserved (s s' : St) : Prop :=
  self s' = self s /\
  (Forall arrival (line (world s)) ->
   Forall arrival (line (world s')) /\
   rx (world s') ++ payload (line (world s')) =
   rx (world s) ++ payload (line (world s)) /\
   exists more, rx (world s') = rx (world s) ++ more).

(** The profile of the client is the same, and [last_frame_end] is still
    unset if it was. *)
Definition profile_kept (s s' : St) : Prop :=
  same_profile (self s) (self s') /\
  (last_frame_end (self s) = None -> last_frame_end (self s') = None).

(** The client object is the same. *)
Definition same_self (s s' : St) : Prop := self s' = self s.

(** * Properties *)

(** ** The constructor on the default arguments *)

Example init_19200_8_1 :
  match __init__ (default_args "/dev/ttyUSB0") with
  | inr c => (Qred (_t0 c), Qred (_recv_interval c),
              Qred (inter_byte_timeout c), Qred (silent_interval c))
  | inl _ => (0, 0, 0, 0)%Q
  end = (4803839602528529 # 9223372036854775808,
         4803839602528529 # 2305843009213693952,
         3602879701896397 # 4611686018427387904,
         1050887951449141 # 576460752303423488)%Q.
Proof. vm_compute. reflexivity. Qed.

(** ** The world *)

Lemma set_accesses_twice (w : World) (l l' : list Access) :
  set_accesses (set_accesses w l) l' = set_accesses w l'.
Proof. reflexivity. Qed.

Lemma set_accesses_same (w : World) : set_accesses w (accesses w) = w.
Proof. destruct w; reflexivity. Qed.

Lemma nap_set_accesses (d : Q) (w : World) (l : list Access) :
  nap d (set_accesses w l) = set_accesses (nap d w) l.
Proof. reflexivity. Qed.

Lemma naps_set_accesses (d : Q) (k : nat) :
  forall w l, naps d k (set_accesses w l) = set_accesses (naps d k w) l.
Proof.
  induction k as [|k IH]; intros w l; simpl; [reflexivity|].
  rewrite nap_set_accesses. apply IH.
Qed.

Lemma polls_set_accesses (d start : Q) (n : nat) :
  forall w l, polls d start (set_accesses w l) n = polls d start w n.
Proof.
  induction n as [|n IH]; intros w l; simpl; [reflexivity|].
  rewrite nap_set_accesses, IH. reflexivity.
Qed.

Lemma polled_set_accesses (w : World) :
  polled w = set_accesses w (accesses (polled w)).
Proof. unfold polled. destruct (pyserial_api w); reflexivity. Qed.

Lemma naps_succ (d : Q) (k : nat) :
  forall w, naps d (S k) w = nap d (naps d k w).
Proof.
  induction k as [|k IH]; intros w; [reflexivity|].
  change (naps d (S (S k)) w) with (naps d (S k) (nap d w)).
  rewrite IH. reflexivity.
Qed.

Lemma oversleep_nonneg (l : list N) : (0 <= oversleep l)%Q.
Proof.
  destruct l as [|us l]; simpl; [apply Qle_refl|].
  unfold Qle; simpl. lia.
Qed.

Lemma now_nap (d : Q) (w : World) : (now w + d <= now (nap d w))%Q.
Proof.
  simpl. pose proof (oversleep_nonneg (lag w)). lra.
Qed.

(** ** The library calls and [_in_waiting] *)

Lemma in_waiting_open (c : ModbusSerialClient) (w : World) :
  socket c <> None ->
  _in_waiting (mkSt c w) = (Return (len (rx w)), mkSt c (polled w)).
Proof.
  intros H. unfold _in_waiting, polled, bind, get_self, get_world.
  cbn [self].
  destruct (socket c) as [p|]; [|congruence].
  cbn [self world ret].
  destruct (pyserial_api w); reflexivity.
Qed.

Lemma time_sleep_ok (d : Q) (c : ModbusSerialClient) (w : World) :
  (0 <= d)%Q ->
  time_sleep d (mkSt c w) = (Return tt, mkSt c (nap d w)).
Proof.
  intros H. unfold time_sleep.
  apply Qle_bool_iff in H. rewrite H. reflexivity.
Qed.

(** ** The loop refines the detector *)

Lemma len_nonneg (b : bytes) : 0 <= len b.
Proof. unfold len. lia. Qed.

Lemma wait_loop_refines (c : ModbusSerialClient) (start timeout : Q) :
  socket c <> None ->
  (0 <= _recv_interval c)%Q ->
  forall fuel w size more_data,
    (more_data = false -> size = 0) ->
    exists l,
      wait_loop fuel start timeout size more_data (mkSt c w) =
      match frame_boundary timeout more_data size
              (polls (_recv_interval c) start w fuel) with
      | Some (k, n) =>
          (Return n, mkSt c (set_accesses (naps (_recv_interval c) k w) l))
      | None =>
          (OutOfFuel,
           mkSt c (set_accesses (naps (_recv_interval c) fuel w) l))
      end.
Proof.
  intros Hsock Hd.
  induction fuel as [|fuel IH]; intros w size more_data Hinv.
  - exists (accesses w). simpl. rewrite set_accesses_same. reflexivity.
  - cbn [wait_loop polls frame_boundary].
    unfold bind at 1. unfold time_time at 1. unfold bind at 1.
    unfold get_world at 1. cbn [world ret].
    destruct (Qle_bool (now w - start) timeout) eqn:Htime; cbn [negb].
    + unfold bind at 1. rewrite (in_waiting_open c w Hsock).
      assert (Hcond :
        (more_data && negb (truthy_int (len (rx w)))
         || more_data && (len (rx w) =? size)) =
        (more_data && ((len (rx w) =? 0) || (len (rx w) =? size)))).
      { unfold truthy_int. destruct more_data, (len (rx w) =? 0),
          (len (rx w) =? size); reflexivity. }
      rewrite Hcond.
      destruct (more_data && ((len (rx w) =? 0) || (len (rx w) =? size)))
        eqn:Hstop.
      * exists (accesses (polled w)). cbn [naps ret].
        rewrite <- polled_set_accesses. reflexivity.
      * unfold bind at 1. cbn [get_self self].
        unfold bind at 1. rewrite (time_sleep_ok _ c (polled w) Hd).
        rewrite (polled_set_accesses w), nap_set_accesses.
        set (changed := truthy_int (len (rx w)) && negb (len (rx w) =? size)).
        assert (Hmore : (if changed then true else more_data) =
                        (more_data || negb (len (rx w) =? 0))).
        { unfold changed, truthy_int.
          destruct more_data; simpl.
          - destruct (negb (len (rx w) =? 0) && negb (len (rx w) =? size));
              reflexivity.
          - rewrite (Hinv eq_refl).
            destruct (len (rx w) =? 0); reflexivity. }
        assert (Hsize : (if changed then len (rx w) else size) = len (rx w)).
        { unfold changed, truthy_int.
          destruct more_data; simpl in Hstop.
          - apply orb_false_iff in Hstop. destruct Hstop as [H0 H1].
            rewrite H0, H1. reflexivity.
          - rewrite (Hinv eq_refl).
            destruct (len (rx w) =? 0) eqn:E; simpl; [|reflexivity].
            apply Z.eqb_eq in E. congruence. }
        rewrite Hmore, Hsize.
        destruct (IH (set_accesses (nap (_recv_interval c) w)
                        (accesses (polled w)))
                    (len (rx w)) (more_data || negb (len (rx w) =? 0)))
          as [l Hl].
        { intros E. apply orb_false_iff in E. destruct E as [_ E].
          apply negb_false_iff, Z.eqb_eq in E. exact E. }
        exists l. rewrite Hl, polls_set_accesses.
        destruct (frame_boundary timeout (more_data || negb (len (rx w) =? 0))
                    (len (rx w))
                    (polls (_recv_interval c) start
                       (nap (_recv_interval c) w) fuel))
          as [[k n]|];
          cbn [naps]; rewrite naps_set_accesses, set_accesses_twice;
          reflexivity.
    + exists (accesses w). cbn [naps ret]. rewrite set_accesses_same.
      reflexivity.
Qed.

(** ** The detector *)

Lemma polls_length (d start : Q) (n : nat) :
  forall w, List.length (polls d start w n) = n.
Proof. induction n as [|n IH]; intros w; simpl; [|rewrite IH]; reflexivity. Qed.

Lemma polls_nth (d start : Q) (n : nat) :
  forall j w, (j < n)%nat ->
    nth j (polls d start w n) (0%Q, 0) =
    ((now (naps d j w) - start)%Q, len (rx (naps d j w))).
Proof.
  induction n as [|n IH]; intros j w Hj; [lia|].
  destruct j as [|j]; simpl; [reflexivity|].
  apply IH. lia.
Qed.

Lemma polls_app (d start : Q) (n m : nat) :
  forall w, polls d start w (n + m) =
            polls d start w n ++ polls d start (naps d n w) m.
Proof.
  induction n as [|n IH]; intros w; simpl; [reflexivity|].
  rewrite IH. reflexivity.
Qed.

(** An answer of the detector does not depend on later polls. *)
Lemma frame_boundary_app (timeout : Q) (ps qs : list Poll) :
  forall seen last r,
    frame_boundary timeout seen last ps = Some r ->
    frame_boundary timeout seen last (ps ++ qs) = Some r.
Proof.
  induction ps as [|[e c] ps IH]; intros seen last r H; simpl in *.
  - discriminate.
  - destruct (negb (Qle_bool e timeout)); [exact H|].
    destruct (seen && ((c =? 0) || (c =? last))); [exact H|].
    destruct (frame_boundary timeout (seen || negb (c =? 0)) c ps)
      as [[k n]|] eqn:E; [|discriminate].
    rewrite (IH _ _ _ E). exact H.
Qed.

(** What an answer [(k, n)] of the detector tells: the polls before [k]
    were all made within the timeout and none completed the frame; [n] is
    the count of the poll before [k]; at [k] the timeout had elapsed, or the
    count was zero or [n] again. *)
Lemma frame_boundary_inv (timeout : Q) (ps : list Poll) :
  forall seen last k n,
    frame_boundary timeout seen last ps = Some (k, n) ->
    (k < List.length ps)%nat /\
    (forall j, (j < k)%nat ->
       Qle_bool (fst (nth j ps (0%Q, 0))) timeout = true) /\
    n = match k with
        | O => last
        | S k' => snd (nth k' ps (0%Q, 0))
        end /\
    (Qle_bool (fst (nth k ps (0%Q, 0))) timeout = false \/
     (Qle_bool (fst (nth k ps (0%Q, 0))) timeout = true /\
      (snd (nth k ps (0%Q, 0)) = 0 \/ snd (nth k ps (0%Q, 0)) = n))).
Proof.
  induction ps as [|[e c] ps IH]; intros seen last k n H; simpl in H.
  - discriminate.
  - destruct (Qle_bool e timeout) eqn:He; simpl in H.
    + destruct (seen && ((c =? 0) || (c =? last))) eqn:Hstop.
      * injection H as <- <-. simpl.
        repeat split; try lia.
        right. split; [exact He|].
        apply andb_true_iff in Hstop. destruct Hstop as [_ Hstop].
        apply orb_true_iff in Hstop.
        destruct Hstop as [Hc|Hc]; apply Z.eqb_eq in Hc; auto.
      * destruct (frame_boundary timeout (seen || negb (c =? 0)) c ps)
          as [[k' n']|] eqn:E; [|discriminate].
        injection H as <- <-.
        destruct (IH _ _ _ _ E) as (Hk & Hin & Hn & Hend).
        simpl. repeat split.
        -- lia.
        -- intros [|j] Hj; [exact He|]. apply Hin. lia.
        -- destruct k' as [|k']; exact Hn.
        -- exact Hend.
    + injection H as <- <-. simpl.
      repeat split; try lia. left. exact He.
Qed.

(** On a line that stays empty the detector can only time out. *)
Lemma frame_boundary_silent (timeout : Q) (ps : list Poll) :
  Forall (fun p => snd p = 0) ps ->
  forall k n,
    frame_boundary timeout false 0 ps = Some (k, n) ->
    n = 0 /\ Qle_bool (fst (nth k ps (0%Q, 0))) timeout = false.
Proof.
  induction 1 as [|[e c] ps Hc _ IH]; intros k n H; simpl in H.
  - discriminate.
  - simpl in Hc. subst c.
    destruct (Qle_bool e timeout) eqn:He; simpl in H.
    + destruct (frame_boundary timeout false 0 ps) as [[k' n']|] eqn:E;
        [|discriminate].
      injection H as <- <-. simpl. apply IH. reflexivity.
    + injection H as <- <-. simpl. auto.
Qed.

(** Sleeping [d > 0] between polls, the timeout is reached after finitely
    many of them. *)
Lemma frame_boundary_total (timeout d start : Q) :
  (0 < d)%Q ->
  forall f w seen last,
    (timeout - (now w - start) < inject_Z (Z.of_nat f) * d)%Q ->
    forall fuel, (f < fuel)%nat ->
      exists k n,
        frame_boundary timeout seen last (polls d start w fuel) = Some (k, n)
        /\ (k <= f)%nat.
Proof.
  intros Hd.
  induction f as [|f IH]; intros w seen last Hlt fuel Hfuel;
    (destruct fuel as [|fuel]; [lia|]); simpl.
  - assert (Hout : Qle_bool (now w - start) timeout = false).
    { destruct (Qle_bool (now w - start) timeout) eqn:E; [|reflexivity].
      apply Qle_bool_iff in E.
      change (inject_Z (Z.of_nat 0)) with 0%Q in Hlt. lra. }
    rewrite Hout. simpl. eauto.
  - destruct (negb (Qle_bool (now w - start) timeout));
      [exists O, last; split; [reflexivity|lia]|].
    destruct (seen && ((len (rx w) =? 0) || (len (rx w) =? last)));
      [exists O, last; split; [reflexivity|lia]|].
    destruct (IH (nap d w) (seen || negb (len (rx w) =? 0)) (len (rx w)))
      with (fuel := fuel) as (k & n & Hk & Hle).
    + pose proof (now_nap d w) as Hnow.
      rewrite Nat2Z.inj_succ in Hlt. unfold Z.succ in Hlt.
      rewrite inject_Z_plus in Hlt.
      change (inject_Z 1) with 1%Q in Hlt. nra.
    + lia.
    + rewrite Hk. exists (S k), n. split; [reflexivity|lia].
Qed.

Lemma enough_fuel_bound (timeout d : Q) :
  (0 < d)%Q ->
  (timeout < inject_Z (Z.of_nat (pred (enough_fuel timeout d))) * d)%Q.
Proof.
  intros Hd. unfold enough_fuel. simpl pred.
  set (z := (Qfloor (timeout / d) + 1)%Z).
  assert (Hz : (timeout / d < inject_Z z)%Q).
  { unfold z. apply Qlt_floor. }
  assert (Hle : (inject_Z z <= inject_Z (Z.of_nat (Z.to_nat z)))%Q).
  { rewrite <- Zle_Qle. lia. }
  assert (Ht : (timeout == (timeout / d) * d)%Q).
  { field. lra. }
  rewrite Ht at 1.
  apply Qlt_le_trans with (inject_Z z * d)%Q.
  - apply Qmult_lt_compat_r; assumption.
  - apply Qmult_le_compat_r; [assumption|lra].
Qed.

(** ** The constructor *)

(** The float [0.001] is a little above the millisecond. *)
Lemma literal_ms :
  PyFloat.literal 0.001 =
  PyFloat.Fin (1152921504606847 # 1152921504606846976).
Proof. vm_compute. reflexivity. Qed.

(** A finite [max(a, b)] with a finite [b] is no less than [b]. *)
Lemma pymax_lower (a : PyFloat.float) (b r : Q) :
  PyFloat.max a (PyFloat.Fin b) = PyFloat.Fin r -> (b <= r)%Q.
Proof.
  unfold PyFloat.max.
  destruct (PyFloat.gt (PyFloat.Fin b) a) eqn:E; intros H.
  - injection H as <-. apply Qle_refl.
  - subst a. cbn in E. apply Bool.negb_false_iff in E.
    apply Qle_bool_iff in E. exact E.
Qed.

(** What the constructor computed, read back from the client it built. *)
Lemma init_inv (a : InitArgs) (c : ModbusSerialClient) :
  __init__ a = inr c ->
  profile a =
    inr (PyFloat.Fin (_t0 c), PyFloat.Fin (_recv_interval c),
         PyFloat.Fin (inter_byte_timeout c),
         PyFloat.Fin (silent_interval c)) /\
  socket c = None /\
  comm_params c =
    mkCommParams (arg_port a) (arg_baudrate a) (arg_bytesize a)
      (arg_parity a) (arg_stopbits a) (arg_handle_local_echo a) (arg_name a)
      (arg_reconnect_delay a) (arg_reconnect_delay_max a) (arg_timeout a) /\
  state c = IDLE /\
  last_frame_end c = None.
Proof.
  unfold __init__.
  destruct (profile a) as [e|[[[t0 ri] ibt] si]]; [discriminate|].
  destruct t0 as [t0| |]; try discriminate.
  destruct ri as [ri| |]; try discriminate.
  destruct ibt as [ibt| |]; try discriminate.
  destruct si as [si| |]; try discriminate.
  intros H. injection H as <-. cbn. auto.
Qed.

Lemma inr4_inv {E A : Type} (a a' b b' c c' d d' : A) :
  @inr E _ (a, b, c, d) = inr (a', b', c', d') ->
  a' = a /\ b' = b /\ c' = c /\ d' = d.
Proof. intros H. injection H as -> -> -> ->. auto. Qed.

(** The float operations behind a profile. *)
Lemma profile_inv (a : InitArgs) (t0 ri ibt si : PyFloat.float) :
  profile a = inr (t0, ri, ibt, si) ->
  exists bits,
    char_bits (arg_bytesize a) (arg_stopbits a) = inr bits /\
    PyFloat.truediv bits (arg_baudrate a) = inr t0 /\
    ri = PyFloat.max (PyFloat.mul t0 (PyFloat.Fin 4)) (PyFloat.literal 0.001) /\
    (if arg_baudrate a >? 19200
     then ibt = PyFloat.Fin 0 /\
          si = PyFloat.round6
                 (PyFloat.div (PyFloat.literal 1.75) (PyFloat.Fin 1000))
     else ibt = PyFloat.mul (PyFloat.literal 1.5) t0 /\
          si = PyFloat.round6 (PyFloat.mul (PyFloat.literal 3.5) t0)).
Proof.
  unfold profile.
  destruct (char_bits (arg_bytesize a) (arg_stopbits a)) as [e|bits];
    [discriminate|].
  destruct (PyFloat.truediv bits (arg_baudrate a)) as [e|t] eqn:Et;
    [discriminate|].
  destruct (arg_baudrate a >? 19200); intros H; apply inr4_inv in H;
    destruct H as (-> & -> & -> & ->); exists bits; repeat split; exact Et.
Qed.

Lemma constructed_interval (c : ModbusSerialClient) :
  Constructed c -> (1 # 1000 <= _recv_interval c)%Q.
Proof.
  intros (a & c0 & Hinit & _ & _ & Hd & _).
  destruct (init_inv a c0 Hinit) as (Hp & _).
  destruct (profile_inv a _ _ _ _ Hp) as (bits & _ & _ & Hri & _).
  rewrite Hd. rewrite literal_ms in Hri. symmetry in Hri.
  apply pymax_lower in Hri.
  apply Qle_trans with (2 := Hri). unfold Qle; cbn. lia.
Qed.

(** ** [_wait_for_data] *)

Lemma wait_for_data_refines (c : ModbusSerialClient) (w : World) (fuel : nat) :
  socket c <> None ->
  (0 <= _recv_interval c)%Q ->
  exists l,
    _wait_for_data fuel (mkSt c w) =
    match frame_boundary (timeout_connect (comm_params c)) false 0
            (polls (_recv_interval c) (now w) w fuel) with
    | Some (k, n) =>
        (Return n, mkSt c (set_accesses (naps (_recv_interval c) k w) l))
    | None =>
        (OutOfFuel,
         mkSt c (set_accesses (naps (_recv_interval c) fuel w) l))
    end.
Proof.
  intros Hsock Hd.
  destruct (wait_loop_refines c (now w) (timeout_connect (comm_params c))
              Hsock Hd fuel w 0 false (fun _ => eq_refl)) as [l Hl].
  exists l. rewrite <- Hl. reflexivity.
Qed.

(** With enough fuel the detector answers, and its answer is the same for
    any larger amount. *)
Lemma detector_answers (timeout d : Q) (w : World) :
  (0 < d)%Q ->
  exists k n,
    (k < enough_fuel timeout d)%nat /\
    forall fuel, (enough_fuel timeout d <= fuel)%nat ->
      frame_boundary timeout false 0 (polls d (now w) w fuel) = Some (k, n).
Proof.
  intros Hd.
  pose proof (enough_fuel_bound timeout d Hd) as Hb.
  destruct (frame_boundary_total timeout d (now w) Hd
              (pred (enough_fuel timeout d)) w false 0)
    with (fuel := enough_fuel timeout d) as (k & n & Hk & Hle).
  - lra.
  - unfold enough_fuel. simpl. lia.
  - exists k, n. split; [unfold enough_fuel in *; simpl in *; lia|].
    intros fuel Hfuel.
    replace fuel with (enough_fuel timeout d
                       + (fuel - enough_fuel timeout d))%nat by lia.
    rewrite polls_app. apply frame_boundary_app. exact Hk.
Qed.

Lemma wait_for_data_returns (c : ModbusSerialClient) (w : World) :
  socket c <> None ->
  (0 < _recv_interval c)%Q ->
  exists k n,
    (forall fuel,
       (enough_fuel (timeout_connect (comm_params c)) (_recv_interval c)
        <= fuel)%nat ->
       frame_boundary (timeout_connect (comm_params c)) false 0
         (polls (_recv_interval c) (now w) w fuel) = Some (k, n) /\
       (k < fuel)%nat /\
       exists l,
         _wait_for_data fuel (mkSt c w) =
         (Return n, mkSt c (set_accesses (naps (_recv_interval c) k w) l))).
Proof.
  intros Hsock Hd.
  destruct (detector_answers (timeout_connect (comm_params c))
              (_recv_interval c) w Hd) as (k & n & Hk & Hans).
  exists k, n. intros fuel Hfuel.
  split; [apply Hans; exact Hfuel|]. split; [lia|].
  destruct (wait_for_data_refines c w fuel Hsock) as [l Hl]; [lra|].
  exists l. rewrite Hl, (Hans fuel Hfuel). reflexivity.
Qed.

(** The loop never touches the client object. *)
Lemma in_waiting_self (s : St) : self (snd (_in_waiting s)) = self s.
Proof.
  unfold _in_waiting, bind, get_self, get_world. cbn [self].
  destruct (socket (self s)); [|reflexivity].
  cbn [world]. destruct (pyserial_api (world s)); reflexivity.
Qed.

Lemma time_sleep_self (d : Q) (s : St) : self (snd (time_sleep d s)) = self s.
Proof. unfold time_sleep. destruct (Qle_bool 0 d); reflexivity. Qed.

Lemma wait_loop_self (start timeout : Q) :
  forall fuel size more_data s,
    self (snd (wait_loop fuel start timeout size more_data s)) = self s.
Proof.
  induction fuel as [|fuel IH]; intros size more_data s; [reflexivity|].
  cbn [wait_loop]. unfold bind at 1. unfold time_time at 1.
  unfold bind at 1. unfold get_world at 1. cbn [ret].
  destruct (Qle_bool (now (world s) - start) timeout); [|reflexivity].
  unfold bind at 1.
  pose proof (in_waiting_self s) as Hs.
  destruct (_in_waiting s) as [[a|e|] s1]; cbn [snd] in Hs;
    [|exact Hs|exact Hs].
  destruct ((more_data && negb (truthy_int a)) || (more_data && (a =? size)));
    [exact Hs|].
  unfold bind at 1. cbn [get_self]. unfold bind at 1.
  pose proof (time_sleep_self (_recv_interval (self s1)) s1) as Hs'.
  destruct (time_sleep (_recv_interval (self s1)) s1) as [[[]|e|] s2];
    cbn [snd] in Hs' |- *; [|congruence|congruence].
  rewrite IH. congruence.
Qed.

Lemma wait_for_data_self (fuel : nat) (s : St) :
  self (snd (_wait_for_data fuel s)) = self s.
Proof.
  unfold _wait_for_data, bind, get_self, time_time, get_world. cbn [ret].
  apply wait_loop_self.
Qed.

(** ** [recv] on an open port *)

Lemma serial_read_eq (port : Serial) (n : Z) (s : St) :
  Serial_read port n s =
  (Return (fst (read_world (ser_timeout port) n (world s))),
   mkSt (self s) (snd (read_world (ser_timeout port) n (world s)))).
Proof. reflexivity. Qed.

Lemma recv_sized (c : ModbusSerialClient) (w : World) (port : Serial)
  (fuel : nat) (n : Z) :
  socket c = Some port ->
  recv fuel (Some n) (mkSt c w) =
  if n >? len (rx w)
  then
    match _wait_for_data fuel (mkSt c (polled w)) with
    | (Return _, s2) => Serial_read port n s2
    | (Raise e, s2) => (Raise e, s2)
    | (OutOfFuel, s2) => (OutOfFuel, s2)
    end
  else Serial_read port n (mkSt c (polled w)).
Proof.
  intros Hsock.
  assert (Hopen : socket c <> None) by congruence.
  unfold recv. unfold bind at 1. cbn [get_self self]. rewrite Hsock.
  unfold bind at 1. cbn [ret]. unfold bind at 1.
  rewrite (in_waiting_open c w Hopen).
  unfold bind at 1.
  destruct (n >? len (rx w)).
  - unfold bind at 1.
    pose proof (wait_for_data_self fuel (mkSt c (polled w))) as Hself.
    destruct (_wait_for_data fuel (mkSt c (polled w))) as [[x|e|] s2];
      try reflexivity.
    cbn [snd self] in Hself. cbn [ret].
    unfold bind. cbn [get_self]. rewrite Hself, Hsock. reflexivity.
  - cbn [ret]. unfold bind. cbn [get_self self]. rewrite Hsock. reflexivity.
Qed.

Lemma recv_detect (c : ModbusSerialClient) (w : World) (port : Serial)
  (fuel : nat) :
  socket c = Some port ->
  recv fuel None (mkSt c w) =
  match _wait_for_data fuel (mkSt c w) with
  | (Return n, s1) => recv fuel (Some n) s1
  | (Raise e, s1) => (Raise e, s1)
  | (OutOfFuel, s1) => (OutOfFuel, s1)
  end.
Proof.
  intros Hsock.
  unfold recv. unfold bind at 1. cbn [get_self self]. rewrite Hsock.
  unfold bind at 1.
  pose proof (wait_for_data_self fuel (mkSt c w)) as Hself.
  destruct (_wait_for_data fuel (mkSt c w)) as [[n|e|] s1]; try reflexivity.
  cbn [snd self] in Hself. symmetry.
  unfold bind at 1. unfold get_self at 1. rewrite Hself, Hsock.
  unfold bind at 1. cbn [ret]. reflexivity.
Qed.

Lemma recv_sized_returns (c : ModbusSerialClient) (w : World) (fuel : nat)
  (n : Z) :
  socket c <> None ->
  (0 < _recv_interval c)%Q ->
  (enough_fuel (timeout_connect (comm_params c)) (_recv_interval c)
   <= fuel)%nat ->
  exists data s', recv fuel (Some n) (mkSt c w) = (Return data, s').
Proof.
  intros Hopen Hd Hfuel.
  destruct (socket c) as [port|] eqn:Hsock; [|congruence].
  rewrite (recv_sized c w port fuel n Hsock).
  destruct (n >? len (rx w)).
  - destruct (wait_for_data_returns c (polled w)) as (k & x & Hrun);
      [congruence|exact Hd|].
    destruct (Hrun fuel Hfuel) as (_ & _ & l & Hl).
    rewrite Hl, serial_read_eq. eauto.
  - rewrite serial_read_eq. eauto.
Qed.

Lemma recv_returns (c : ModbusSerialClient) (w : World) (fuel : nat)
  (size : option Z) :
  socket c <> None ->
  (0 < _recv_interval c)%Q ->
  (enough_fuel (timeout_connect (comm_params c)) (_recv_interval c)
   <= fuel)%nat ->
  exists data s', recv fuel size (mkSt c w) = (Return data, s').
Proof.
  intros Hopen Hd Hfuel.
  destruct size as [n|]; [apply recv_sized_returns; assumption|].
  destruct (socket c) as [port|] eqn:Hsock; [|congruence].
  rewrite (recv_detect c w port fuel Hsock).
  destruct (wait_for_data_returns c w) as (k & n & Hrun);
    [congruence|exact Hd|].
  destruct (Hrun fuel Hfuel) as (_ & _ & l & Hl).
  rewrite Hl. apply recv_sized_returns; [congruence|assumption..].
Qed.

(** * The claims *)

Lemma deliver_silent (t : Q) (l : list (Q * LineEvent)) :
  Forall no_bytes l ->
  fst (deliver t [] l) = [] /\ Forall no_bytes (snd (deliver t [] l)).
Proof.
  induction 1 as [|[te ev] l Hev Hl IH]; simpl; [auto|].
  destruct (Qle_bool te t); simpl.
  - assert (Hbuf : apply_event ev [] = []).
    { unfold no_bytes in Hev. simpl in Hev.
      destruct ev as [data|]; simpl; [exact Hev|reflexivity]. }
    rewrite Hbuf. exact IH.
  - auto.
Qed.

Lemma nap_silent (d : Q) (w : World) : Silent w -> Silent (nap d w).
Proof.
  intros [Hrx Hline]. unfold Silent, nap. cbn [rx line]. rewrite Hrx.
  apply deliver_silent. exact Hline.
Qed.

Lemma polls_silent (d start : Q) (n : nat) :
  forall w, Silent w -> Forall (fun p : Poll => snd p = 0) (polls d start w n).
Proof.
  induction n as [|n IH]; intros w Hw; simpl; constructor.
  - simpl. destruct Hw as [Hrx _]. rewrite Hrx. reflexivity.
  - apply IH, nap_silent, Hw.
Qed.

Lemma read_nothing (timeout : Q) (w : World) :
  fst (read_world timeout 0 w) = [] /\
  now (snd (read_world timeout 0 w)) = now w.
Proof.
  unfold read_world. simpl Z.to_nat.
  destruct (line w) as [|[te ev] rest]; simpl; auto.
Qed.

Lemma now_polled (w : World) : now (polled w) = now w.
Proof. unfold polled. destruct (pyserial_api w); reflexivity. Qed.

Lemma rx_polled (w : World) : rx (polled w) = rx w.
Proof. unfold polled. destruct (pyserial_api w); reflexivity. Qed.

(** C10. On an open port of a constructed client whose line delivers no
    byte at all, [recv(None)] returns the empty byte string, and does so
    only once more than [timeout_connect] has elapsed since the call: no
    exception is raised. *)
Theorem recv_nothing_arrives (s : St) (fuel : nat) :
  Constructed (self s) ->
  Connected s ->
  Silent (world s) ->
  (enough_fuel (timeout_connect (comm_params (self s)))
     (_recv_interval (self s)) <= fuel)%nat ->
  exists s',
    recv fuel None s = (Return [], s') /\
    (timeout_connect (comm_params (self s))
     < now (world s') - now (world s))%Q.
Proof.
  destruct s as [c w]. unfold Connected. cbn [self world].
  intros Hc Hopen Hsilent Hfuel.
  assert (Hd : (0 < _recv_interval c)%Q).
  { pose proof (constructed_interval c Hc). lra. }
  destruct (socket c) as [port|] eqn:Hsock; [|congruence].
  destruct (wait_for_data_returns c w) as (k & n & Hrun);
    [congruence|exact Hd|].
  destruct (Hrun fuel Hfuel) as (Hfb & Hk & l & Hl).
  destruct (frame_boundary_silent _ _ (polls_silent _ _ fuel w Hsilent)
              _ _ Hfb) as [-> Hout].
  rewrite polls_nth in Hout by exact Hk. cbn [fst] in Hout.
  rewrite (recv_detect c w port fuel Hsock), Hl.
  rewrite (recv_sized c _ port fuel 0 Hsock).
  assert (Hno : (0 >? len (rx (set_accesses (naps (_recv_interval c) k w) l)))
                = false).
  { pose proof (len_nonneg
                  (rx (set_accesses (naps (_recv_interval c) k w) l))).
    rewrite Z.gtb_ltb. apply Z.ltb_ge. lia. }
  rewrite Hno, serial_read_eq. cbn [world self].
  destruct (read_nothing (ser_timeout port)
              (polled (set_accesses (naps (_recv_interval c) k w) l)))
    as [Hgot Hnow].
  rewrite Hgot. eexists. split; [reflexivity|].
  cbn [world]. rewrite Hnow, now_polled. cbn [now set_accesses].
  destruct (Qlt_le_dec (timeout_connect (comm_params c))
              (now (naps (_recv_interval c) k w) - now w)) as [H|H];
    [exact H|].
  apply Qle_bool_iff in H. congruence.
Qed.

(** ** Growing counts *)

Lemma last_cons {A} (a d : A) (l : list A) : last (a :: l) d = last l a.
Proof.
  revert a d. induction l as [|b l IH]; intros a d; [reflexivity|].
  change (last (a :: b :: l) d) with (last (b :: l) d).
  rewrite (IH b d), (IH b a). reflexivity.
Qed.

(** While the polls are made within the timeout and the counts keep
    changing, the detector goes on. *)
Lemma frame_boundary_growing (timeout : Q) (qs : list Poll) :
  forall ps prev,
    0 <= prev ->
    Forall (fun p : Poll => Qle_bool (fst p) timeout = true) ps ->
    growing prev (map snd ps) = true ->
    frame_boundary timeout (negb (prev =? 0)) prev (ps ++ qs) =
    match frame_boundary timeout (negb (last (map snd ps) prev =? 0))
            (last (map snd ps) prev) qs with
    | Some (k, n) => Some ((List.length ps + k)%nat, n)
    | None => None
    end.
Proof.
  induction ps as [|[e c] ps IH]; intros prev Hprev Htime Hgrow.
  - simpl. destruct (frame_boundary timeout (negb (prev =? 0)) prev qs)
      as [[k n]|]; reflexivity.
  - inversion Htime as [|p ps' He Hps]; subst. cbn [fst] in He.
    cbn [map snd growing] in Hgrow.
    apply andb_true_iff in Hgrow. destruct Hgrow as [Hstep Hgrow].
    cbn [app frame_boundary]. rewrite He. cbn [negb].
    assert (Hc : 0 <= c /\ negb (prev =? 0) && ((c =? 0) || (c =? prev)) = false
                 /\ (negb (prev =? 0) || negb (c =? 0)) = negb (c =? 0)).
    { apply orb_true_iff in Hstep. destruct Hstep as [Hlt|Hidle].
      - apply Z.ltb_lt in Hlt.
        assert (E0 : (c =? 0) = false) by (apply Z.eqb_neq; lia).
        assert (E1 : (c =? prev) = false) by (apply Z.eqb_neq; lia).
        rewrite E0, E1. split; [lia|]. split.
        + apply andb_false_r.
        + apply orb_true_r.
      - apply andb_true_iff in Hidle. destruct Hidle as [Hp Hz].
        rewrite Hp, Hz. apply Z.eqb_eq in Hz.
        split; [lia|]. split; reflexivity. }
    destruct Hc as (Hc0 & Hstop & Hseen).
    rewrite Hstop, Hseen, (IH c Hc0 Hps Hgrow).
    cbn [map snd]. rewrite last_cons.
    destruct (frame_boundary timeout (negb (last (map snd ps) c =? 0))
                (last (map snd ps) c) qs) as [[k n]|]; reflexivity.
Qed.

(** With data seen, a poll that finds the count unchanged ends the wait,
    and so does a timeout: either way the count is returned. *)
Lemma frame_boundary_stable (timeout e : Q) (n : Z) (qs : list Poll) :
  n <> 0 ->
  frame_boundary timeout (negb (n =? 0)) n ((e, n) :: qs) = Some (O, n).
Proof.
  intros Hn. apply Z.eqb_neq in Hn. simpl. rewrite Hn, Z.eqb_refl. simpl.
  destruct (Qle_bool e timeout); reflexivity.
Qed.

(** ** Time and the line *)

Lemma now_naps_mono (d : Q) :
  (0 <= d)%Q ->
  forall k i w, (i <= k)%nat -> (now (naps d i w) <= now (naps d k w))%Q.
Proof.
  intros Hd. induction k as [|k IH]; intros i w Hi.
  - replace i with O by lia. apply Qle_refl.
  - destruct (Nat.eq_dec i (S k)) as [->|Hne]; [apply Qle_refl|].
    apply Qle_trans with (now (naps d k w)); [apply IH; lia|].
    rewrite naps_succ. pose proof (now_nap d (naps d k w)). lra.
Qed.

Lemma polls_in_time (d timeout : Q) (w : World) (j : nat) :
  (0 <= d)%Q ->
  (elapsed d w j <= timeout)%Q ->
  Forall (fun p : Poll => Qle_bool (fst p) timeout = true)
    (polls d (now w) w (S j)).
Proof.
  intros Hd Hj. apply Forall_forall. intros p Hp.
  destruct (In_nth _ _ (0%Q, 0) Hp) as (i & Hi & <-).
  rewrite polls_length in Hi. rewrite polls_nth by exact Hi. cbn [fst].
  apply Qle_bool_iff. unfold elapsed in Hj.
  assert (Hle : (i <= j)%nat) by lia.
  pose proof (now_naps_mono d Hd j i w Hle). lra.
Qed.

Lemma deliver_payload (t : Q) (l : list (Q * LineEvent)) :
  Forall arrival l ->
  forall buf,
    fst (deliver t buf l) ++ payload (snd (deliver t buf l)) =
    buf ++ payload l /\
    Forall arrival (snd (deliver t buf l)).
Proof.
  induction 1 as [|[te ev] l Hev Hl IH]; intros buf; simpl; [auto|].
  unfold arrival in Hev. simpl in Hev.
  destruct ev as [data|]; [|contradiction].
  destruct (Qle_bool te t); simpl.
  - destruct (IH (buf ++ data)) as [Hp Ha]. rewrite Hp, app_assoc. auto.
  - split; [reflexivity|]. constructor; [exact I|exact Hl].
Qed.

Lemma naps_payload (d : Q) (k : nat) :
  forall w,
    Forall arrival (line w) ->
    rx (naps d k w) ++ payload (line (naps d k w)) =
    rx w ++ payload (line w).
Proof.
  induction k as [|k IH]; intros w Hw; [reflexivity|].
  cbn [naps].
  destruct (deliver_payload (now w + d + oversleep (lag w)) (line w) Hw (rx w))
    as [Hp Ha].
  rewrite IH; [exact Hp|exact Ha].
Qed.

Lemma deliver_conserves (t : Q) (l : list (Q * LineEvent)) :
  Forall arrival l ->
  forall buf,
    Forall arrival (snd (deliver t buf l)) /\
    fst (deliver t buf l) ++ payload (snd (deliver t buf l)) =
    buf ++ payload l /\
    exists more, fst (deliver t buf l) = buf ++ more.
Proof.
  induction 1 as [|[te ev] l Hev Hl IH]; intros buf; simpl.
  - repeat split; [constructor|]. exists []. rewrite app_nil_r. reflexivity.
  - unfold arrival in Hev. simpl in Hev.
    destruct ev as [data|]; [|contradiction].
    destruct (Qle_bool te t); simpl.
    + destruct (IH (buf ++ data)) as (Ha & Hp & more & Hm).
      split; [exact Ha|]. split; [rewrite Hp, app_assoc; reflexivity|].
      exists (data ++ more). rewrite Hm, app_assoc. reflexivity.
    + split; [constructor; [exact I|exact Hl]|].
      split; [reflexivity|]. exists []. rewrite app_nil_r. reflexivity.
Qed.

Lemma nap_grows (d : Q) (w : World) :
  Forall arrival (line w) ->
  Forall arrival (line (nap d w)) /\
  exists more, rx (nap d w) = rx w ++ more.
Proof.
  intros H. unfold nap. cbn [rx line].
  destruct (deliver_conserves (now w + d + oversleep (lag w)) (line w) H
              (rx w)) as (Ha & _ & Hm).
  split; assumption.
Qed.

Lemma naps_arrival (d : Q) (k : nat) :
  forall w, Forall arrival (line w) -> Forall arrival (line (naps d k w)).
Proof.
  induction k as [|k IH]; intros w H; [exact H|].
  cbn [naps]. apply IH, nap_grows, H.
Qed.

Lemma nap_quiet (d : Q) (w : World) :
  line w = [] -> rx (nap d w) = rx w /\ line (nap d w) = [].
Proof. intros H. unfold nap. cbn [rx line]. rewrite H. auto. Qed.

Lemma growing_app (l1 l2 : list Z) :
  forall prev, growing prev (l1 ++ l2) = true -> growing prev l1 = true.
Proof.
  induction l1 as [|c l1 IH]; intros prev H; [reflexivity|].
  simpl in *. apply andb_true_iff in H. destruct H as [H1 H2].
  rewrite H1. simpl. apply IH. exact H2.
Qed.

Lemma polls_last (d start : Q) (j : nat) :
  forall w prev,
    last (map snd (polls d start w (S j))) prev = len (rx (naps d j w)).
Proof.
  induction j as [|j IH]; intros w prev; [reflexivity|].
  change (polls d start w (S (S j)))
    with (((now w - start)%Q, len (rx w)) :: polls d start (nap d w) (S j)).
  cbn [map snd]. rewrite last_cons. apply IH.
Qed.

(** The detector on a wait whose first [S j] polls are made within the
    timeout and see the count change every time. *)
Lemma detector_growing (d timeout : Q) (w : World) (j fuel : nat) :
  (0 <= d)%Q ->
  (elapsed d w j <= timeout)%Q ->
  growing 0 (counts d w (S j)) = true ->
  frame_boundary timeout false 0 (polls d (now w) w (S j + fuel)) =
  match frame_boundary timeout (negb (len (rx (naps d j w)) =? 0))
          (len (rx (naps d j w)))
          (polls d (now w) (naps d (S j) w) fuel) with
  | Some (k, n) => Some ((S j + k)%nat, n)
  | None => None
  end.
Proof.
  intros Hd Hj Hgrow.
  rewrite polls_app.
  pose proof (frame_boundary_growing timeout
                (polls d (now w) (naps d (S j) w) fuel)
                (polls d (now w) w (S j)) 0 (Z.le_refl 0)
                (polls_in_time d timeout w j Hd Hj) Hgrow) as H.
  rewrite polls_last, polls_length in H. exact H.
Qed.

Lemma read_enough (timeout : Q) (n : Z) (w : World) :
  n <= len (rx w) ->
  fst (read_world timeout n w) = firstn (Z.to_nat n) (rx w) /\
  rx (snd (read_world timeout n w)) = skipn (Z.to_nat n) (rx w) /\
  now (snd (read_world timeout n w)) = now w /\
  line (snd (read_world timeout n w)) = line w.
Proof.
  intros Hn. unfold read_world.
  assert (Hle : (Z.to_nat n <=? List.length (rx w))%nat = true).
  { apply Nat.leb_le. unfold len in Hn. lia. }
  assert (Hnow : await (Z.to_nat n) (now w + timeout) (now w) (rx w) (line w)
                 = (now w, rx w, line w)).
  { destruct (line w) as [|[te ev] rest]; simpl; rewrite Hle; reflexivity. }
  rewrite Hnow. cbn [fst snd rx now line]. auto.
Qed.

Lemma read_all (timeout : Q) (w : World) :
  fst (read_world timeout (len (rx w)) w) = rx w /\
  rx (snd (read_world timeout (len (rx w)) w)) = [].
Proof.
  destruct (read_enough timeout (len (rx w)) w (Z.le_refl _))
    as (Hgot & Hrest & _).
  rewrite Hgot, Hrest. unfold len. rewrite Nat2Z.id.
  split; [apply firstn_all|apply skipn_all].
Qed.

Lemma len_zero (b : bytes) : len b = 0 -> b = [].
Proof. destruct b; [reflexivity|]. unfold len. simpl. lia. Qed.

(** C1 (as amended: the connect timeout ends the wait as well). On an open
    port of a constructed client:
    - for every behaviour of the line and every amount of fuel,
      [_wait_for_data] answers what the detector [frame_boundary] answers
      on the polls the loop makes: the last recorded count, at the first
      poll at which the timeout has elapsed, or at which data was seen and
      the count is zero or equal to the last recorded count; a changed
      count is recorded and polling goes on;
    - if the first [j + 1] polls are made within the timeout and see the
      count change every time, the loop does not return before it has
      slept more than [j] times;
    - if moreover the line only delivers bytes and everything has been
      delivered by poll [j], then [recv(None)] returns exactly the bytes
      delivered (those buffered at the start, then those of the line) and
      leaves the buffer empty. *)
Theorem frame_boundary_detection (c : ModbusSerialClient) (w : World) :
  Constructed c ->
  socket c <> None ->
  (forall fuel,
     fst (_wait_for_data fuel (mkSt c w)) =
     outcome_of
       (frame_boundary (timeout_connect (comm_params c)) false 0
          (polls (_recv_interval c) (now w) w fuel))) /\
  (forall j,
     (elapsed (_recv_interval c) w j <= timeout_connect (comm_params c))%Q ->
     growing 0 (counts (_recv_interval c) w (S j)) = true ->
     (forall fuel n s',
        _wait_for_data fuel (mkSt c w) = (Return n, s') ->
        exists k l,
          (j < k)%nat /\
          s' = mkSt c (set_accesses (naps (_recv_interval c) k w) l)) /\
     (Forall arrival (line w) ->
      line (naps (_recv_interval c) j w) = [] ->
      rx w ++ payload (line w) <> [] ->
      forall fuel, (j + 2 <= fuel)%nat ->
        exists s',
          recv fuel None (mkSt c w) =
          (Return (rx w ++ payload (line w)), s') /\
          rx (world s') = [])).
Proof.
  intros Hc Hopen.
  assert (Hd : (0 <= _recv_interval c)%Q).
  { pose proof (constructed_interval c Hc). lra. }
  set (d := _recv_interval c) in *.
  set (timeout := timeout_connect (comm_params c)).
  split.
  - intros fuel.
    destruct (wait_for_data_refines c w fuel Hopen Hd) as [l Hl].
    rewrite Hl. fold d timeout.
    destruct (frame_boundary timeout false 0 (polls d (now w) w fuel))
      as [[k n]|]; reflexivity.
  - intros j Hj Hgrow. split.
    + intros fuel n s' Hrun.
      destruct (wait_for_data_refines c w fuel Hopen Hd) as [l Hl].
      fold d timeout in Hl. rewrite Hl in Hrun.
      destruct (frame_boundary timeout false 0 (polls d (now w) w fuel))
        as [[k n0]|] eqn:Hfb; [|discriminate].
      injection Hrun as <- <-.
      exists k, l. split; [|reflexivity].
      pose proof (frame_boundary_app timeout _
                    (polls d (now w) (naps d fuel w) (S j)) _ _ _ Hfb) as Hext.
      rewrite <- polls_app, Nat.add_comm in Hext.
      rewrite (detector_growing d timeout w j fuel Hd Hj Hgrow) in Hext.
      destruct (frame_boundary timeout (negb (len (rx (naps d j w)) =? 0))
                  (len (rx (naps d j w)))
                  (polls d (now w) (naps d (S j) w) fuel))
        as [[k' n']|]; [|discriminate].
      injection Hext as <- _. lia.
    + intros Harr Hdone Hsent fuel Hfuel.
      destruct (wait_for_data_refines c w fuel Hopen Hd) as [l Hl].
      destruct (socket c) as [port|] eqn:Hsock; [|congruence].
      assert (Hdata : rx (naps d j w) = rx w ++ payload (line w)).
      { pose proof (naps_payload d j w Harr) as Hp.
        rewrite Hdone, app_nil_r in Hp. exact Hp. }
      assert (Hn : len (rx (naps d j w)) <> 0).
      { intros E. apply len_zero in E. congruence. }
      destruct (nap_quiet d (naps d j w) Hdone) as [Hrx' _].
      rewrite <- naps_succ in Hrx'.
      assert (Hfb : frame_boundary timeout false 0 (polls d (now w) w fuel)
                    = Some (S j, len (rx (naps d j w)))).
      { replace fuel with (S j + S (fuel - j - 2))%nat by lia.
        rewrite (detector_growing d timeout w j _ Hd Hj Hgrow).
        cbn [polls]. rewrite Hrx', (frame_boundary_stable _ _ _ _ Hn).
        f_equal. f_equal. lia. }
      fold d timeout in Hl. rewrite Hfb in Hl.
      rewrite (recv_detect c w port fuel Hsock), Hl.
      rewrite (recv_sized c _ port fuel _ Hsock).
      cbn [rx set_accesses]. rewrite Hrx', Z.gtb_ltb, Z.ltb_irrefl.
      rewrite serial_read_eq. cbn [world self].
      set (w2 := polled (set_accesses (naps d (S j) w) l)).
      assert (Hw2 : rx w2 = rx (naps d j w)).
      { unfold w2. rewrite rx_polled. exact Hrx'. }
      rewrite <- Hw2.
      destruct (read_all (ser_timeout port) w2) as [Hgot Hrest].
      rewrite Hgot.
      exists (mkSt c (snd (read_world (ser_timeout port) (len (rx w2)) w2))).
      split; [|exact Hrest].
      f_equal. f_equal. congruence.
Qed.

Lemma constructed_default (timeout : Q) (sock : option Serial) :
  Constructed (set_socket (client_with_timeout timeout) sock).
Proof.
  exists (mkInitArgs "/dev/ttyUSB0" 19200 8 "N" (Int 1) false "comm" (1 # 10)
            300 timeout).
  exists (client_with_timeout timeout).
  split; [vm_compute; reflexivity|]. repeat split; reflexivity.
Defined.

Lemma frame_boundary_detection_witness :
  Constructed (self burst_state) /\
  socket (self burst_state) <> None /\
  exists s',
    recv 100 None burst_state = (Return [x01; x02; x03], s') /\
    rx (world s') = [].
Proof.
  assert (HC : Constructed (self burst_state)).
  { exact (constructed_default 3 (socket (self burst_state))). }
  assert (HO : socket (self burst_state) <> None).
  { vm_compute. discriminate. }
  split; [exact HC|]. split; [exact HO|].
  destruct (frame_boundary_detection (self burst_state) (world burst_state)
              HC HO) as [_ H].
  destruct (H 5%nat) as [_ H2].
  - vm_compute. discriminate.
  - vm_compute. reflexivity.
  - apply H2.
    + repeat constructor.
    + reflexivity.
    + vm_compute. discriminate.
    + apply Nat.leb_le. reflexivity.
Defined.

(** The wait of [trickle_state] is ended by the timeout after four polls
    have seen the count grow: [recv(None)] returns four of the six bytes the
    source sends, although the line only delivers bytes, the count changes
    at every poll until all six are buffered (by the seventh poll), and a
    fifth byte is in the buffer by then. The sixth poll comes after the
    timeout of 10 ms. *)
Lemma timeout_ends_growing_wait :
  Forall arrival (line (world trickle_state)) /\
  payload (line (world trickle_state)) = [x01; x02; x03; x04; x05; x06] /\
  growing 0 (counts (_recv_interval (self trickle_state))
               (world trickle_state) 7) = true /\
  line (naps (_recv_interval (self trickle_state)) 6 (world trickle_state))
  = [] /\
  (timeout_connect (comm_params (self trickle_state))
   < elapsed (_recv_interval (self trickle_state)) (world trickle_state) 5)%Q /\
  fst (_wait_for_data 100 trickle_state) = Return 4 /\
  fst (recv 100 None trickle_state) = Return [x01; x02; x03; x04] /\
  rx (world (snd (recv 100 None trickle_state))) = [x05].
Proof.
  split; [repeat constructor|].
  vm_compute. repeat split; reflexivity.
Qed.

(** Data seen, then the buffer dropped by the driver: the wait ends at the
    poll that finds the buffer empty and answers the last recorded count. *)
Example buffer_reset_ends_wait :
  fst (_wait_for_data 100
         (connected_state 3
            (with_line (with_rx quiet_world [x01; x02])
               [((1 # 1000)%Q, Reset)])))
  = Return 2.
Proof. vm_compute. reflexivity. Qed.

Lemma recv_nothing_arrives_witness :
  Constructed (self idle_state) /\
  Connected idle_state /\
  Silent (world idle_state) /\
  exists s',
    recv 100 None idle_state = (Return [], s') /\
    (timeout_connect (comm_params (self idle_state))
     < now (world s') - now (world idle_state))%Q.
Proof.
  assert (HC : Constructed (self idle_state)).
  { exact (constructed_default (1 # 100) (socket (self idle_state))). }
  assert (HO : Connected idle_state).
  { unfold Connected. vm_compute. discriminate. }
  assert (HS : Silent (world idle_state)).
  { split; [reflexivity|constructor]. }
  split; [exact HC|]. split; [exact HO|]. split; [exact HS|].
  apply (recv_nothing_arrives idle_state 100 HC HO HS).
  apply Nat.leb_le. vm_compute. reflexivity.
Defined.

(** ** [connect] and [close] *)

(** What [connect] does on a transport without a port, in the three cases:
    the open fails; the open succeeds and the configuration fails; both
    succeed. *)
Lemma connect_disconnected (c : ModbusSerialClient) (w : World) :
  socket c = None ->
  connect (mkSt c w) =
  match open_fault w, config_fault w with
  | Some e, _ =>
      (Return false,
       mkSt (set_socket c None)
         (log_record (LogError e)
            (access (Open (host (comm_params c)) true) w)))
  | None, Some e =>
      (Return false,
       mkSt (set_socket (set_socket c (Some (opened c))) None)
         (set_held
            (access Close
               (log_record (LogError e)
                  (access (Configure (inter_byte_timeout c))
                     (set_held (access (Open (host (comm_params c)) true) w)
                        true))))
            false))
  | None, None =>
      (Return true,
       mkSt (set_last_frame_end
               (set_socket (set_socket c (Some (opened c)))
                  (Some (configured c))) None)
         (access (Configure (inter_byte_timeout c))
            (set_held (access (Open (host (comm_params c)) true) w) true)))
  end.
Proof.
  intros Hsock. unfold connect. unfold bind at 1. cbn [get_self self].
  rewrite Hsock. cbn [is_some].
  unfold bind at 1, try_except, serial_for_url.
  unfold bind at 1. cbn [get_self self].
  unfold bind at 1. unfold bind at 1. cbn [get_world world].
  unfold bind at 1. cbn [put_world self world].
  destruct (open_fault w) as [e|] eqn:Hopen.
  - cbn [raise]. unfold Log_error, close, bind, get_self, get_world,
      put_world, put_self. cbn [self world]. rewrite Hsock.
    cbn [is_some ret self world set_socket socket]. reflexivity.
  - unfold Serial_set_inter_byte_timeout.
    unfold bind, get_self, get_world, put_world, put_self, ret.
    cbn [self world set_held access set_accesses config_fault set_socket
         inter_byte_timeout].
    destruct (config_fault w) as [e|] eqn:Hconf.
    + cbn [raise]. unfold Log_error, close, Serial_close, bind, get_self,
        get_world, put_world, put_self, ret.
      cbn [self world set_socket socket is_some]. reflexivity.
    + cbn [self world set_socket socket is_some set_last_frame_end].
      reflexivity.
Qed.









(** An int beyond the range of floats makes the constructor raise
    OverflowError, as baud rate or as byte size; [2 ** 1024 - 2 ** 970] is
    the least such int. *)
Example init_baudrate_overflow :
  __init__ (mkInitArgs "/dev/ttyUSB0" (10 ^ 400) 8 "N" (Int 1) false "comm"
              (1 # 10) 300 3)
  = inl (Raised OverflowError) /\
  __init__ (mkInitArgs "/dev/ttyUSB0" 0 (10 ^ 400) "N" (Int 1) false "comm"
              (1 # 10) 300 3)
  = inl (Raised OverflowError) /\
  PyFloat.of_int (2 ^ 1024 - 2 ^ 970) = inl OverflowError /\
  PyFloat.of_int (2 ^ 1024 - 2 ^ 970 - 1)
  = inr (PyFloat.Fin (inject_Z (2 ^ 1024 - 2 ^ 971))).
Proof. vm_compute. repeat split; reflexivity. Qed.

(** The rounding to six decimals acts on the float, not on the fraction
    the float stands for: at 1600 baud, 8 data bits and 2 stop bits
    [3.5 * _t0] is a little above 0.0240625 and rounds up, at 320 baud,
    7 data bits and 1 stop bit it is a little below 0.0984375 and rounds
    down. *)
Example init_round_ties :
  (exists c,
     __init__ (mkInitArgs "/dev/ttyUSB0" 1600 8 "N" (Int 2) false "comm"
                 (1 # 10) 300 3) = inr c /\
     PyFloat.Fin (silent_interval c) = PyFloat.literal 0.024063) /\
  (exists c,
     __init__ (mkInitArgs "/dev/ttyUSB0" 320 7 "N" (Int 1) false "comm"
                 (1 # 10) 300 3) = inr c /\
     PyFloat.Fin (silent_interval c) = PyFloat.literal 0.098437).
Proof.
  split; eexists; (split; [vm_compute; reflexivity|vm_compute; reflexivity]).
Qed.

(** One and a half stop bits: [float(1 + 8 + 1.5) / 19200]. *)
Example init_stopbits_one_and_a_half :
  exists c,
    __init__ (mkInitArgs "/dev/ttyUSB0" 19200 8 "N" (Flt 1.5) false "comm"
                (1 # 10) 300 3) = inr c /\
    PyFloat.Fin (_t0 c) = PyFloat.literal 0.000546875 /\
    stopbits (comm_params c) = Flt 1.5.
Proof.
  eexists. split; [vm_compute; reflexivity|].
  split; vm_compute; reflexivity.
Qed.

(** C8. [connect] is idempotent: on a transport that holds a port it
    returns true and leaves the client and the world as they are; in
    particular the device is not accessed. *)
Theorem connect_idempotent (s : St) :
  Connected s -> connect s = (Return true, s).
Proof.
  destruct s as [c w]. unfold Connected. cbn [self]. intros H.
  unfold connect, bind. cbn [get_self self].
  destruct (socket c); [reflexivity|congruence].
Qed.

Lemma connect_idempotent_witness :
  Connected burst_state /\ connect burst_state = (Return true, burst_state).
Proof.
  assert (H : Connected burst_state).
  { unfold Connected. vm_compute. discriminate. }
  split; [exact H|]. exact (connect_idempotent burst_state H).
Defined.

(** C9. Reading [connected] is calling [connect]: the two computations
    agree on every state, and on a transport without a port the read
    opens the device, as the history of accesses shows. *)
Theorem connected_is_connect (s : St) :
  connected s = connect s /\
  (Disconnected s ->
   exists l,
     accesses (world (snd (connected s))) =
     l ++ Open (host (comm_params (self s))) true :: accesses (world s)).
Proof.
  split; [reflexivity|].
  destruct s as [c w]. unfold Disconnected, connected. cbn [self world].
  intros H. rewrite (connect_disconnected c w H).
  destruct (open_fault w) as [e|]; [|destruct (config_fault w) as [e|]].
  - exists []. reflexivity.
  - exists [Close; Configure (inter_byte_timeout c)]. reflexivity.
  - exists [Configure (inter_byte_timeout c)]. reflexivity.
Qed.

(** C7. Whatever the back-end raises while [connect] opens the line (from
    the open itself, or from the configuration of the opened port) is
    caught and logged; [connect] returns false, the transport is left
    without a port, and a port that had been opened is closed again. *)
Theorem connect_failure (s : St) (e : Exception) :
  Disconnected s ->
  open_fault (world s) = Some e \/
  (open_fault (world s) = None /\ config_fault (world s) = Some e) ->
  exists s',
    connect s = (Return false, s') /\
    Disconnected s' /\
    logged (world s') = LogError e :: logged (world s) /\
    (open_fault (world s) = None -> held (world s') = false).
Proof.
  destruct s as [c w]. unfold Disconnected. cbn [self world].
  intros Hsock Hfault. rewrite (connect_disconnected c w Hsock).
  destruct Hfault as [Hopen|[Hopen Hconf]].
  - rewrite Hopen. eexists. split; [reflexivity|].
    repeat split. intros H. discriminate H.
  - rewrite Hopen, Hconf. eexists. split; [reflexivity|].
    repeat split.
Qed.

Lemma connect_failure_witness :
  Disconnected
    (mkSt (client_with_timeout 3)
       (with_open_fault quiet_world (Some (BackendError "termios.error")))) /\
  exists s',
    connect
      (mkSt (client_with_timeout 3)
         (with_open_fault quiet_world (Some (BackendError "termios.error"))))
    = (Return false, s') /\
    Disconnected s'.
Proof.
  assert (H : Disconnected
                (mkSt (client_with_timeout 3)
                   (with_open_fault quiet_world
                      (Some (BackendError "termios.error"))))).
  { reflexivity. }
  split; [exact H|].
  destruct (connect_failure _ (BackendError "termios.error") H
              (or_introl eq_refl)) as (s' & Hrun & Hs' & _).
  exists s'. split; [exact Hrun|exact Hs'].
Defined.

(** The open succeeds and the configuration of the port fails: the port is
    closed again and nothing is held. *)
Example connect_configuration_fails :
  let r := connect (mkSt (client_with_timeout 3)
                      (with_config_fault quiet_world (Some ValueError))) in
  fst r = Return false /\
  socket (self (snd r)) = None /\
  held (world (snd r)) = false /\
  accesses (world (snd r))
  = [Close; Configure (inter_byte_timeout (client_with_timeout 3));
     Open "/dev/ttyUSB0" true] /\
  logged (world (snd r)) = [LogError ValueError].
Proof. vm_compute. repeat split; reflexivity. Qed.

(** ** [send] and [recv] *)

Lemma close_disconnects (s s' : St) :
  close s = (Return tt, s') -> Disconnected s'.
Proof.
  unfold close, Serial_close, bind, get_self, get_world, put_world, put_self,
    ret, Disconnected.
  destruct (is_some (socket (self s))); cbn [self world];
    intros H; injection H as <-; reflexivity.
Qed.

(** C6. A transport that never connected (a client as the constructor
    returns it) and a transport on which [close] was called last are both
    without a port; and on every transport without a port [send] and [recv]
    raise ConnectionException and leave the world as it was: no access to
    the device is made, nor attempted. ([send] moves the transaction state
    of the client first.) The transport is still without a port
    afterwards, so this goes on until a [connect]. *)
Theorem disconnected_io_fails
  (_start_send : ModbusTransactionState -> ModbusTransactionState) :
  (forall a c w, __init__ a = inr c -> Disconnected (mkSt c w)) /\
  (forall s, exists s', close s = (Return tt, s') /\ Disconnected s') /\
  (forall s,
     Disconnected s ->
     forall (request : bytes) (fuel : nat) (size : option Z),
       send _start_send request s =
       (Raise ConnectionException,
        mkSt (set_state (self s) (_start_send (state (self s)))) (world s)) /\
       recv fuel size s = (Raise ConnectionException, s) /\
       Disconnected (snd (send _start_send request s))).
Proof.
  split; [|split].
  - intros a c w Hinit. unfold Disconnected. cbn [self].
    destruct (init_inv a c Hinit) as (_ & H & _). exact H.
  - intros s. destruct (close s) as [[[]|e|] s'] eqn:Hclose.
    + exists s'. split; [reflexivity|]. exact (close_disconnects s s' Hclose).
    + exfalso. revert Hclose.
      unfold close, Serial_close, bind, get_self, get_world, put_world,
        put_self, ret.
      destruct (is_some (socket (self s))); discriminate.
    + exfalso. revert Hclose.
      unfold close, Serial_close, bind, get_self, get_world, put_world,
        put_self, ret.
      destruct (is_some (socket (self s))); discriminate.
  - intros s Hs request fuel size.
    destruct s as [c w]. unfold Disconnected in *. cbn [self world] in *.
    assert (Hsend :
      send _start_send request (mkSt c w) =
      (Raise ConnectionException,
       mkSt (set_state c (_start_send (state c))) w)).
    { unfold send, bind, get_self, put_self.
      cbn [self world set_state socket]. rewrite Hs. reflexivity. }
    split; [exact Hsend|]. split.
    + unfold recv, bind, get_self. cbn [self]. rewrite Hs. reflexivity.
    + rewrite Hsend. cbn [snd self set_state socket]. exact Hs.
Qed.

Example closed_port_refuses :
  fst (send (fun _ => SENDING) [x01] (snd (close burst_state)))
  = Raise ConnectionException /\
  fst (recv 100 None (snd (close burst_state))) = Raise ConnectionException /\
  accesses (world (snd (recv 100 None (snd (close burst_state)))))
  = accesses (world (snd (close burst_state))).
Proof. vm_compute. repeat split; reflexivity. Qed.

Lemma send_connected
  (_start_send : ModbusTransactionState -> ModbusTransactionState)
  (c : ModbusSerialClient) (w : World) (port : Serial) (request : bytes) :
  socket c = Some port ->
  request <> [] ->
  send _start_send request (mkSt c w) =
  (Return match write_report w request with
          | Some n => n
          | None => 0
          end,
   mkSt (set_state c (_start_send (state c)))
     (write_world request (cleaned port w))).
Proof.
  intros Hsock Hreq.
  assert (Hopen : socket (set_state c (_start_send (state c))) <> None).
  { cbn [set_state socket]. congruence. }
  unfold send. unfold bind at 1. cbn [get_self self].
  unfold bind at 1. cbn [put_self world].
  unfold bind at 1. cbn [get_self self set_state socket]. rewrite Hsock.
  destruct request as [|b request]; [congruence|]. cbn [truthy_bytes].
  unfold bind at 1. rewrite (in_waiting_open _ w Hopen).
  unfold cleaned.
  destruct (rx w) as [|r buf] eqn:Hrx.
  - cbn [truthy_int len List.length Z.of_nat Z.eqb negb].
    unfold Serial_write, get_world, put_world, ret, bind.
    cbn [self world].
    unfold polled. destruct (pyserial_api w); reflexivity.
  - assert (Hn : truthy_int (len (r :: buf)) = true) by reflexivity.
    rewrite Hn. unfold bind at 1. unfold bind at 1.
    rewrite serial_read_eq. cbn [self world].
    unfold Log_warning, Serial_write, get_world, put_world, ret, bind.
    cbn [self world].
    unfold polled. destruct (pyserial_api w); reflexivity.
Qed.

(** C5. On a transport that holds a port, [send] of a non-empty payload
    asks how many bytes wait in the receive buffer, reads and discards all
    of them (logging them), and only then writes the payload: the buffer
    is empty when the write is made, the payload is appended to what was
    written so far, and the value returned is what the write reports, 0
    when it reports none. [send] of an empty payload returns 0 and leaves
    the world as it is: no drain, no write. *)
Theorem send_drains_then_writes
  (_start_send : ModbusTransactionState -> ModbusTransactionState)
  (c : ModbusSerialClient) (w : World) (port : Serial) (request : bytes) :
  socket c = Some port ->
  (request <> [] ->
   exists w',
     send _start_send request (mkSt c w) =
     (Return match write_report w request with
             | Some n => n
             | None => 0
             end,
      mkSt (set_state c (_start_send (state c))) w') /\
     rx w' = [] /\
     tx w' = tx w ++ request /\
     accesses w' =
     Write request :: cleanup_accesses (rx w) ++ accesses (polled w) /\
     logged w' = cleanup_records (rx w) ++ logged w) /\
  (request = [] ->
   send _start_send request (mkSt c w) =
   (Return 0, mkSt (set_state c (_start_send (state c))) w)).
Proof.
  intros Hsock. split.
  - intros Hreq. exists (write_world request (cleaned port w)).
    split; [exact (send_connected _start_send c w port request Hsock Hreq)|].
    unfold cleaned. destruct (rx w) as [|r buf] eqn:Hrx.
    + cbn [write_world rx tx accesses logged cleanup_accesses
           cleanup_records app].
      rewrite rx_polled, Hrx. unfold polled.
      destruct (pyserial_api w); repeat split; reflexivity.
    + destruct (read_all (ser_timeout port) (polled w)) as [Hgot Hrest].
      rewrite rx_polled, Hrx in Hgot, Hrest.
      cbn [write_world log_record rx tx accesses logged cleanup_accesses
           cleanup_records app].
      rewrite Hgot. split; [exact Hrest|].
      unfold read_world. cbn [snd tx accesses logged].
      unfold read_world in Hgot. cbn [fst] in Hgot. rewrite Hgot.
      unfold polled. destruct (pyserial_api w); repeat split; reflexivity.
  - intros ->. unfold send, bind, get_self, put_self.
    cbn [self world set_state socket]. rewrite Hsock. reflexivity.
Qed.

Lemma send_drains_then_writes_witness :
  socket (self burst_state) = Some (configured (client_with_timeout 3)) /\
  exists w',
    send (fun _ => SENDING) [x03]
      (mkSt (self burst_state) (with_rx (world burst_state) [x01; x02])) =
    (Return 1, mkSt (set_state (self burst_state) SENDING) w') /\
    rx w' = [] /\
    tx w' = [x03].
Proof.
  assert (H : socket (self burst_state)
              = Some (configured (client_with_timeout 3))).
  { reflexivity. }
  split; [exact H|].
  destruct (send_drains_then_writes (fun _ => SENDING) (self burst_state)
              (with_rx (world burst_state) [x01; x02])
              (configured (client_with_timeout 3)) [x03] H) as [Hsend _].
  destruct Hsend as (w' & Hrun & Hrx & Htx & _); [discriminate|].
  exists w'. split; [exact Hrun|]. split; [exact Hrx|exact Htx].
Defined.

Lemma serial_read_spec (port : Serial) (n : Z) (s : St) :
  exists got s',
    Serial_read port n s = (Return got, s') /\
    self s' = self s /\
    accesses (world s') = Read n got :: accesses (world s) /\
    (List.length got <= Z.to_nat n)%nat /\
    (n <= len (rx (world s)) ->
     got = firstn (Z.to_nat n) (rx (world s)) /\
     rx (world s') = skipn (Z.to_nat n) (rx (world s)) /\
     (0 <= n -> len got = n)).
Proof.
  rewrite serial_read_eq. do 2 eexists. split; [reflexivity|].
  cbn [self world]. split; [reflexivity|]. split; [reflexivity|]. split.
  - unfold read_world. cbn [fst]. apply firstn_le_length.
  - intros Hn.
    destruct (read_enough (ser_timeout port) n (world s) Hn)
      as (Hgot & Hrest & _).
    split; [exact Hgot|]. split; [exact Hrest|].
    intros H0. rewrite Hgot. unfold len in *. rewrite length_firstn. lia.
Qed.

(** What a read hands over: at most the size asked for, and less only when
    it empties the buffer. *)
Lemma read_short (timeout : Q) (n : Z) (w : World) :
  (List.length (fst (read_world timeout n w)) <= Z.to_nat n)%nat /\
  (List.length (fst (read_world timeout n w)) = Z.to_nat n \/
   (List.length (fst (read_world timeout n w)) < Z.to_nat n)%nat /\
   rx (snd (read_world timeout n w)) = []).
Proof.
  unfold read_world. cbn [fst snd rx].
  set (buf := snd (fst (await _ _ _ _ _))).
  split; [apply firstn_le_length|].
  destruct (Nat.le_gt_cases (Z.to_nat n) (List.length buf)) as [H|H].
  - left. apply firstn_length_le. exact H.
  - right. rewrite firstn_all2 by lia. split; [exact H|].
    apply skipn_all2. lia.
Qed.

(** The count the loop returns is one that a poll saw: it is not negative,
    and on a line that only delivers bytes the buffer holds that many bytes
    when the loop returns. *)
Lemma detector_count (timeout d : Q) (w : World) (fuel k : nat) (n : Z) :
  frame_boundary timeout false 0 (polls d (now w) w fuel) = Some (k, n) ->
  0 <= n /\ (Forall arrival (line w) -> n <= len (rx (naps d k w))).
Proof.
  intros Hfb.
  destruct (frame_boundary_inv _ _ _ _ _ _ Hfb) as (Hk & _ & Hn & _).
  rewrite polls_length in Hk.
  destruct k as [|k].
  - subst n. split; [lia|]. intros _. apply len_nonneg.
  - rewrite polls_nth in Hn by lia. cbn [snd] in Hn. subst n.
    split; [apply len_nonneg|]. intros Hw. rewrite naps_succ.
    destruct (nap_grows d (naps d k w) (naps_arrival d k w Hw))
      as (_ & more & Hm).
    rewrite Hm. unfold len. rewrite length_app. lia.
Qed.

(** [recv] with a size, on an open port: one read of that size ends it,
    at once when the buffer holds that many bytes, after a run of the
    detector otherwise. *)
Lemma recv_sized_spec (c : ModbusSerialClient) (w : World) (port : Serial)
  (fuel : nat) (m : Z) :
  socket c = Some port ->
  (0 < _recv_interval c)%Q ->
  (enough_fuel (timeout_connect (comm_params c)) (_recv_interval c)
   <= fuel)%nat ->
  exists got s',
    recv fuel (Some m) (mkSt c w) = (Return got, s') /\
    (exists rest, accesses (world s') = Read m got :: rest) /\
    (List.length got <= Z.to_nat m)%nat /\
    (List.length got = Z.to_nat m \/
     (List.length got < Z.to_nat m)%nat /\ rx (world s') = []) /\
    (m <= len (rx w) ->
     got = firstn (Z.to_nat m) (rx w) /\
     rx (world s') = skipn (Z.to_nat m) (rx w) /\
     now (world s') = now w) /\
    (m > len (rx w) ->
     exists x s2,
       _wait_for_data fuel (mkSt c (polled w)) = (Return x, s2) /\
       recv fuel (Some m) (mkSt c w) = Serial_read port m s2 /\
       accesses (world s') = Read m got :: accesses (world s2) /\
       (m <= len (rx (world s2)) ->
        got = firstn (Z.to_nat m) (rx (world s2)) /\
        rx (world s') = skipn (Z.to_nat m) (rx (world s2)))).
Proof.
  intros Hsock Hd Hfuel.
  assert (Hopen : socket c <> None) by congruence.
  rewrite (recv_sized c w port fuel m Hsock).
  destruct (m >? len (rx w)) eqn:Hm.
  - apply Z.gtb_gt in Hm.
    destruct (wait_for_data_returns c (polled w) Hopen Hd) as (k & x & Hrun).
    destruct (Hrun fuel Hfuel) as (_ & _ & l & Hl).
    rewrite Hl, serial_read_eq. cbn [self world].
    set (w2 := set_accesses (naps (_recv_interval c) k (polled w)) l).
    destruct (read_short (ser_timeout port) m w2) as [Hle Hlen].
    exists (fst (read_world (ser_timeout port) m w2)),
      (mkSt c (snd (read_world (ser_timeout port) m w2))).
    split; [reflexivity|]. cbn [world].
    split; [eexists; reflexivity|]. split; [exact Hle|].
    split; [exact Hlen|]. split; [lia|]. intros _.
    exists x, (mkSt c w2). split; [reflexivity|].
    split; [rewrite serial_read_eq; reflexivity|].
    split; [reflexivity|]. cbn [world]. intros Hbuf.
    destruct (read_enough (ser_timeout port) m w2 Hbuf) as (Hg & Hr & _).
    split; assumption.
  - rewrite Z.gtb_ltb in Hm. apply Z.ltb_ge in Hm.
    rewrite serial_read_eq. cbn [self world].
    destruct (read_short (ser_timeout port) m (polled w)) as [Hle Hlen].
    exists (fst (read_world (ser_timeout port) m (polled w))),
      (mkSt c (snd (read_world (ser_timeout port) m (polled w)))).
    split; [reflexivity|]. cbn [world].
    split; [eexists; reflexivity|]. split; [exact Hle|].
    split; [exact Hlen|]. split; [|lia]. intros _.
    assert (Hbuf : m <= len (rx (polled w))) by (rewrite rx_polled; exact Hm).
    destruct (read_enough (ser_timeout port) m (polled w) Hbuf)
      as (Hg & Hr & Hnow & _).
    rewrite rx_polled in Hg, Hr. rewrite now_polled in Hnow.
    repeat split; assumption.
Qed.

(** C3 (as amended: what [recv] returns is what the loop had counted, not
    what the buffer holds when the loop ends). The loop of [_wait_for_data]
    always terminates. On an open port of a constructed client there are a
    number of sleeps [k] and a count [n] such that, with any fuel from
    [enough_fuel] on, the loop returns [n] after exactly [k] sleeps; no
    poll is made once the time elapsed since entry exceeds
    [timeout_connect] ([k] is at most the first such poll); [n] is the
    count accumulated so far, that is the one seen by the last poll, 0 if
    there was none; the loop ends because the timeout has elapsed or
    because the buffer is empty or unchanged. [recv] returns to its caller
    as well: with no size its last access to the device is a read of [n]
    bytes, which yields [n] bytes at most; when the buffer holds [n] bytes
    at the end of the loop, as it does on a line that only delivers bytes,
    [recv] returns the first [n] of them at once, at the time the loop
    ended, and leaves the others, among them those that came after the last
    poll, in the buffer. With a size [recv] returns too, at most that many
    bytes. *)
Theorem wait_for_data_terminates (s : St) :
  Constructed (self s) ->
  Connected s ->
  let d := _recv_interval (self s) in
  let timeout := timeout_connect (comm_params (self s)) in
  exists k n,
    (forall fuel, (enough_fuel timeout d <= fuel)%nat ->
       exists l,
         _wait_for_data fuel s =
         (Return n, mkSt (self s) (set_accesses (naps d k (world s)) l))) /\
    (forall j, (timeout < now (naps d j (world s)) - now (world s))%Q ->
       (k <= j)%nat) /\
    n = match k with
        | O => 0
        | S k' => len (rx (naps d k' (world s)))
        end /\
    ((timeout < now (naps d k (world s)) - now (world s))%Q \/
     len (rx (naps d k (world s))) = 0 \/
     len (rx (naps d k (world s))) = n) /\
    (forall fuel, (enough_fuel timeout d <= fuel)%nat ->
       exists got s',
         recv fuel None s = (Return got, s') /\
         (exists rest, accesses (world s') = Read n got :: rest) /\
         len got <= n /\
         (n <= len (rx (naps d k (world s))) ->
          got = firstn (Z.to_nat n) (rx (naps d k (world s))) /\
          rx (world s') = skipn (Z.to_nat n) (rx (naps d k (world s))) /\
          now (world s') = now (naps d k (world s)))) /\
    (Forall arrival (line (world s)) ->
     n <= len (rx (naps d k (world s)))) /\
    (forall fuel m, (enough_fuel timeout d <= fuel)%nat ->
       exists got s',
         recv fuel (Some m) s = (Return got, s') /\
         (exists rest, accesses (world s') = Read m got :: rest) /\
         (List.length got <= Z.to_nat m)%nat).
Proof.
  destruct s as [c w]. unfold Connected. cbn [self world].
  intros Hc Hopen.
  set (d := _recv_interval c).
  set (timeout := timeout_connect (comm_params c)).
  assert (Hd : (0 < d)%Q).
  { pose proof (constructed_interval c Hc). unfold d. lra. }
  destruct (socket c) as [port|] eqn:Hsock; [clear Hopen|congruence].
  assert (Hopen : socket c <> None) by congruence.
  destruct (wait_for_data_returns c w Hopen Hd) as (k & n & Hrun).
  fold d timeout in Hrun.
  destruct (Hrun (enough_fuel timeout d) (le_n _)) as (Hfb & Hk & _).
  destruct (frame_boundary_inv _ _ _ _ _ _ Hfb) as (_ & Hin & Hn & Hend).
  destruct (detector_count _ _ _ _ _ _ Hfb) as (Hn0 & Harr).
  exists k, n.
  split; [|split; [|split; [|split; [|split; [|split]]]]].
  - intros fuel Hfuel. destruct (Hrun fuel Hfuel) as (_ & _ & Hl). exact Hl.
  - intros j Hj.
    destruct (Nat.le_gt_cases k j) as [Hle|Hlt]; [exact Hle|].
    specialize (Hin j Hlt). rewrite polls_nth in Hin by lia.
    cbn [fst] in Hin. apply Qle_bool_iff in Hin. lra.
  - destruct k as [|k]; [exact Hn|].
    rewrite polls_nth in Hn by lia. exact Hn.
  - rewrite polls_nth in Hend by lia. cbn [fst snd] in Hend.
    destruct Hend as [Hout|[_ Hstop]].
    + left.
      destruct (Qlt_le_dec timeout (now (naps d k w) - now w)) as [H|H];
        [exact H|].
      apply Qle_bool_iff in H. congruence.
    + right. exact Hstop.
  - intros fuel Hfuel.
    destruct (Hrun fuel Hfuel) as (_ & _ & l & Hl).
    rewrite (recv_detect c w port fuel Hsock), Hl.
    destruct (recv_sized_spec c (set_accesses (naps d k w) l) port fuel n
                Hsock Hd Hfuel)
      as (got & s' & Hr & Hacc & Hle & _ & Hnow & _).
    cbn [set_accesses rx now] in Hnow.
    exists got, s'. split; [exact Hr|]. split; [exact Hacc|].
    split; [unfold len; lia|exact Hnow].
  - exact Harr.
  - intros fuel m Hfuel.
    destruct (recv_sized_spec c w port fuel m Hsock Hd Hfuel)
      as (got & s' & Hr & Hacc & Hle & _).
    exists got, s'. auto.
Qed.

Lemma wait_for_data_terminates_witness :
  Constructed (self burst_state) /\
  Connected burst_state /\
  exists n got s',
    fst (_wait_for_data 2000 burst_state) = Return n /\
    recv 2000 None burst_state = (Return got, s') /\
    got = [x01; x02; x03] /\
    len got = n /\
    rx (world s') = [].
Proof.
  assert (HC : Constructed (self burst_state)).
  { exact (constructed_default 3 (socket (self burst_state))). }
  assert (HO : Connected burst_state).
  { unfold Connected. vm_compute. discriminate. }
  split; [exact HC|]. split; [exact HO|].
  destruct (wait_for_data_terminates burst_state HC HO)
    as (k & n & Hwait & _ & _ & _ & Hrecv & _).
  assert (Hfuel : (enough_fuel
                     (timeout_connect (comm_params (self burst_state)))
                     (_recv_interval (self burst_state)) <= 2000)%nat).
  { apply Nat.leb_le. vm_compute. reflexivity. }
  destruct (Hwait 2000%nat Hfuel) as [l Hl].
  destruct (Hrecv 2000%nat Hfuel) as (got & s' & Hr & _).
  assert (Hn : fst (_wait_for_data 2000 burst_state) = Return 3).
  { vm_compute. reflexivity. }
  assert (Hg : fst (recv 2000 None burst_state) = Return [x01; x02; x03]).
  { vm_compute. reflexivity. }
  assert (Hx : rx (world (snd (recv 2000 None burst_state))) = []).
  { vm_compute. reflexivity. }
  rewrite Hl in Hn. cbn [fst] in Hn.
  rewrite Hr in Hg, Hx. cbn [fst snd] in Hg, Hx.
  exists n, got, s'. rewrite Hl. cbn [fst].
  split; [reflexivity|]. split; [exact Hr|].
  injection Hg as ->. injection Hn as ->.
  repeat split. exact Hx.
Defined.

(** In [late_state] the frame arrives 10 ms after the start and the timeout
    of 10.1 ms ends the wait at the next poll: the loop returns the count
    0 of the poll before, and [recv(None)] returns no byte although the
    three bytes of the frame are in the buffer, where they stay. *)
Lemma timeout_abort_leaves_bytes :
  Connected late_state /\
  fst (_wait_for_data 100 late_state) = Return 0 /\
  rx (world (snd (_wait_for_data 100 late_state))) = [x01; x02; x03] /\
  (timeout_connect (comm_params (self late_state))
   < now (world (snd (_wait_for_data 100 late_state)))
     - now (world late_state))%Q /\
  fst (recv 100 None late_state) = Return [] /\
  rx (world (snd (recv 100 None late_state))) = [x01; x02; x03].
Proof.
  split; [unfold Connected; vm_compute; discriminate|].
  split; [vm_compute; reflexivity|].
  split; [vm_compute; reflexivity|].
  split; [vm_compute; reflexivity|].
  split; vm_compute; reflexivity.
Qed.

(** C4 (as amended: the read yields the size asked for only when that many
    bytes come in time). [recv] on an open port of a constructed client
    returns, in two modes.
    - With no size, it runs the detector, which returns a count [n], and
      goes on as if [n] had been asked for. Its last access to the device
      is a read of [n] bytes, which yields [n] bytes, or fewer and then all
      there is. When the buffer holds [n] bytes once the detector has
      returned, as it does on a line that only delivers bytes, [recv]
      returns exactly the first [n] and leaves the others in the buffer.
    - With a size [m] larger than the number of buffered bytes, it runs
      the detector, which returns, and then asks the port for [m] bytes:
      that read is the one access after the detector, and it yields [m]
      bytes, or fewer and then all there is. When the buffer holds [m]
      bytes once the detector has returned, [recv] returns exactly the
      first [m] and leaves the others in the buffer. *)
Theorem recv_two_modes (c : ModbusSerialClient) (w : World) (port : Serial)
  (fuel : nat) :
  Constructed c ->
  socket c = Some port ->
  (enough_fuel (timeout_connect (comm_params c)) (_recv_interval c)
   <= fuel)%nat ->
  (exists n s1 got s',
     _wait_for_data fuel (mkSt c w) = (Return n, s1) /\
     recv fuel None (mkSt c w) = recv fuel (Some n) s1 /\
     recv fuel None (mkSt c w) = (Return got, s') /\
     (exists rest, accesses (world s') = Read n got :: rest) /\
     (len got = n \/ len got < n /\ rx (world s') = []) /\
     (n <= len (rx (world s1)) ->
      got = firstn (Z.to_nat n) (rx (world s1)) /\
      rx (world s') = skipn (Z.to_nat n) (rx (world s1))) /\
     (Forall arrival (line w) -> n <= len (rx (world s1)))) /\
  (forall m,
     m > len (rx w) ->
     exists x s2 got s',
       _wait_for_data fuel (mkSt c (polled w)) = (Return x, s2) /\
       recv fuel (Some m) (mkSt c w) = Serial_read port m s2 /\
       recv fuel (Some m) (mkSt c w) = (Return got, s') /\
       accesses (world s') = Read m got :: accesses (world s2) /\
       (len got = m \/ len got < m /\ rx (world s') = []) /\
       (m <= len (rx (world s2)) ->
        got = firstn (Z.to_nat m) (rx (world s2)) /\
        rx (world s') = skipn (Z.to_nat m) (rx (world s2)))).
Proof.
  intros Hc Hsock Hfuel.
  assert (Hopen : socket c <> None) by congruence.
  assert (Hd : (0 < _recv_interval c)%Q).
  { pose proof (constructed_interval c Hc). lra. }
  split.
  - destruct (wait_for_data_returns c w Hopen Hd) as (k & n & Hrun).
    destruct (Hrun fuel Hfuel) as (Hfb & _ & l & Hl).
    destruct (detector_count _ _ _ _ _ _ Hfb) as (Hn0 & Harr).
    set (w1 := set_accesses (naps (_recv_interval c) k w) l) in *.
    assert (Hrecv : recv fuel None (mkSt c w) = recv fuel (Some n) (mkSt c w1)).
    { rewrite (recv_detect c w port fuel Hsock), Hl. reflexivity. }
    destruct (recv_sized_spec c w1 port fuel n Hsock Hd Hfuel)
      as (got & s' & Hr & Hacc & Hle & Hlen & Hnow & _).
    exists n, (mkSt c w1), got, s'.
    split; [exact Hl|]. split; [exact Hrecv|].
    split; [rewrite Hrecv; exact Hr|]. split; [exact Hacc|].
    split.
    { unfold len. destruct Hlen as [Hlen|[Hlen Hrx]];
        [left; lia|right; split; [lia|exact Hrx]]. }
    cbn [world]. split.
    + intros Hbuf. destruct (Hnow Hbuf) as (Hg & Hrest & _).
      split; assumption.
    + exact Harr.
  - intros m Hm.
    destruct (recv_sized_spec c w port fuel m Hsock Hd Hfuel)
      as (got & s' & Hr & _ & Hle & Hlen & _ & Hlate).
    destruct (Hlate Hm) as (x & s2 & Hwait & Hread & Hacc & Hexact).
    exists x, s2, got, s'.
    split; [exact Hwait|]. split; [exact Hread|]. split; [exact Hr|].
    split; [exact Hacc|]. split; [|exact Hexact].
    pose proof (len_nonneg (rx w)). unfold len.
    destruct Hlen as [Hlen|[Hlen Hrx]];
      [left; lia|right; split; [lia|exact Hrx]].
Qed.

Lemma recv_two_modes_witness :
  Constructed (self burst_state) /\
  socket (self burst_state) = Some (configured (client_with_timeout 3)) /\
  exists n s1 got s',
    _wait_for_data 2000 burst_state = (Return n, s1) /\
    recv 2000 None burst_state = recv 2000 (Some n) s1 /\
    recv 2000 None burst_state = (Return got, s') /\
    got = [x01; x02; x03] /\
    (exists x s2,
       _wait_for_data 2000
         (mkSt (self burst_state) (polled (world burst_state)))
       = (Return x, s2) /\
       recv 2000 (Some 5) burst_state
       = Serial_read (configured (client_with_timeout 3)) 5 s2).
Proof.
  assert (HC : Constructed (self burst_state)).
  { exact (constructed_default 3 (socket (self burst_state))). }
  assert (H : socket (self burst_state)
              = Some (configured (client_with_timeout 3))).
  { reflexivity. }
  split; [exact HC|]. split; [exact H|].
  assert (Hfuel : (enough_fuel
                     (timeout_connect (comm_params (self burst_state)))
                     (_recv_interval (self burst_state)) <= 2000)%nat).
  { apply Nat.leb_le. vm_compute. reflexivity. }
  destruct (recv_two_modes (self burst_state) (world burst_state)
              (configured (client_with_timeout 3)) 2000 HC H Hfuel)
    as [Hnone Hsome].
  destruct Hnone as (n & s1 & got & s' & Hwait & Hrecv & Hr & _).
  destruct (Hsome 5) as (x & s2 & _ & _ & Hwait2 & Hread & _).
  { vm_compute. reflexivity. }
  change (mkSt (self burst_state) (world burst_state)) with burst_state
    in Hwait, Hrecv, Hr, Hread.
  assert (Hg : fst (recv 2000 None burst_state) = Return [x01; x02; x03]).
  { vm_compute. reflexivity. }
  exists n, s1, got, s'.
  split; [exact Hwait|]. split; [exact Hrecv|]. split; [exact Hr|].
  rewrite Hr in Hg. cbn [fst] in Hg. injection Hg as ->.
  split; [reflexivity|].
  exists x, s2. split; [exact Hwait2|exact Hread].
Defined.

(** In [short_state] two bytes are buffered and no other comes:
    [recv(5)] runs the detector and then returns the two bytes, not
    five. *)
Lemma recv_sized_reads_short :
  Connected short_state /\
  rx (world short_state) = [x01; x02] /\
  line (world short_state) = [] /\
  5 > len (rx (world short_state)) /\
  fst (recv 100 (Some 5) short_state) = Return [x01; x02] /\
  rx (world (snd (recv 100 (Some 5) short_state))) = [].
Proof.
  split; [unfold Connected; vm_compute; discriminate|].
  split; [vm_compute; reflexivity|].
  split; [vm_compute; reflexivity|].
  split; [vm_compute; reflexivity|].
  split; vm_compute; reflexivity.
Qed.

(** * Further properties of the client *)

(** ** The life cycle of the connection *)

Lemma set_socket_none_same (c : ModbusSerialClient) :
  socket c = None -> set_socket c None = c.
Proof. destruct c; simpl; intros ->; reflexivity. Qed.

Lemma close_eq (c : ModbusSerialClient) (w : World) :
  close (mkSt c w) =
  (Return tt,
   mkSt (set_socket c None)
     (if is_some (socket c) then set_held (access Close w) false else w)).
Proof.
  unfold close, Serial_close, bind, get_self, get_world, put_world, put_self,
    ret. cbn [self world].
  destruct (is_some (socket c)); reflexivity.
Qed.

(** X1. [close] always returns and leaves the transport without a port. If
    there was a port the device is closed, once, and released; if there
    was none nothing changes at all. A second [close] is a no-op. *)
Theorem close_idempotent (s : St) :
  exists s1,
    close s = (Return tt, s1) /\
    Disconnected s1 /\
    close s1 = (Return tt, s1) /\
    (Connected s ->
     world s1 = set_held (access Close (world s)) false /\
     held (world s1) = false) /\
    (Disconnected s -> s1 = s).
Proof.
  destruct s as [c w]. rewrite close_eq. eexists. split; [reflexivity|].
  unfold Connected, Disconnected. cbn [self world set_socket socket].
  split; [reflexivity|]. split; [|split].
  - rewrite close_eq. cbn [set_socket socket is_some]. reflexivity.
  - intros H. destruct (socket c); [|congruence]. split; reflexivity.
  - intros H. rewrite H. cbn [is_some].
    rewrite (set_socket_none_same c H). reflexivity.
Qed.

Lemma connect_connected (c : ModbusSerialClient) (w : World) :
  socket c <> None -> connect (mkSt c w) = (Return true, mkSt c w).
Proof.
  intros H. unfold connect, bind. cbn [get_self self].
  destruct (socket c); [reflexivity|congruence].
Qed.

(** X2. [connect] never raises: it returns a boolean, and that boolean is
    true exactly when the transport holds a port afterwards. It is true
    exactly when the transport held a port already, or neither the open nor
    the configuration of the port fails. *)
Theorem connect_reports_state (s : St) :
  exists b s',
    connect s = (Return b, s') /\
    (b = true <-> Connected s') /\
    (b = true <->
     Connected s \/
     (open_fault (world s) = None /\ config_fault (world s) = None)).
Proof.
  destruct s as [c w]. unfold Connected. cbn [self world].
  destruct (socket c) as [port|] eqn:Hsock.
  - exists true, (mkSt c w). split.
    + apply connect_connected. congruence.
    + cbn [self]. rewrite Hsock. split; split; intros; try reflexivity.
      * discriminate.
      * left. discriminate.
  - rewrite (connect_disconnected c w Hsock).
    destruct (open_fault w) as [e|]; [|destruct (config_fault w) as [e|]];
      do 2 eexists; (split; [reflexivity|]);
      cbn [self set_socket set_last_frame_end socket];
      split; split; intros H; try discriminate; try reflexivity;
      try congruence.
    + destruct H as [H|[H _]]; [congruence|discriminate].
    + destruct H as [H|[_ H]]; [congruence|discriminate].
    + right. split; reflexivity.
Qed.

(** X3. A successful [connect] on a transport without a port opens the
    device exclusively with the settings of [comm_params], the read
    timeout being [timeout_connect], and assigns the [inter_byte_timeout]
    of the client. After a [close], [connect] does the same again: the
    port has the same settings as the first time and the client is as it
    was after the first [connect]. *)
Theorem reconnect_same_settings (c : ModbusSerialClient) (w : World) :
  socket c = None ->
  open_fault w = None ->
  config_fault w = None ->
  exists s1 s2 s3,
    connect (mkSt c w) = (Return true, s1) /\
    close s1 = (Return tt, s2) /\
    connect s2 = (Return true, s3) /\
    socket (self s1) = Some (configured c) /\
    ser_exclusive (configured c) = true /\
    ser_timeout (configured c) = timeout_connect (comm_params c) /\
    ser_inter_byte_timeout (configured c) = Some (inter_byte_timeout c) /\
    self s3 = self s1 /\
    held (world s1) = true /\ held (world s2) = false /\
    held (world s3) = true /\
    accesses (world s3) =
    [Configure (inter_byte_timeout c); Open (host (comm_params c)) true;
     Close;
     Configure (inter_byte_timeout c); Open (host (comm_params c)) true]
    ++ accesses w.
Proof.
  intros Hsock Hopen Hconf.
  rewrite (connect_disconnected c w Hsock), Hopen, Hconf.
  do 3 eexists. split; [reflexivity|].
  rewrite close_eq. split; [reflexivity|].
  cbn [set_last_frame_end set_socket socket is_some].
  rewrite connect_disconnected by reflexivity.
  cbn [world open_fault config_fault access set_held set_accesses].
  rewrite Hopen, Hconf. split; [reflexivity|].
  cbn [self world]. repeat split.
Qed.

Lemma reconnect_same_settings_witness :
  socket (client_with_timeout 3) = None /\
  open_fault quiet_world = None /\
  config_fault quiet_world = None /\
  exists s3,
    connect (snd (close (snd (connect (mkSt (client_with_timeout 3)
                                         quiet_world)))))
    = (Return true, s3) /\
    socket (self s3) = Some (configured (client_with_timeout 3)).
Proof.
  split; [reflexivity|]. split; [reflexivity|]. split; [reflexivity|].
  destruct (reconnect_same_settings (client_with_timeout 3) quiet_world
              eq_refl eq_refl eq_refl)
    as (s1 & s2 & s3 & H1 & H2 & H3 & Hs1 & _ & _ & _ & Hs3 & _).
  exists s3. rewrite H1. cbn [snd]. rewrite H2. cbn [snd].
  split; [exact H3|]. rewrite Hs3. exact Hs1.
Defined.

(** X4. [is_socket_open] answers false on a transport without a port,
    whatever the state of the device, true right after a [connect] that
    opened the port, and false after any [close]. It changes nothing. *)
Theorem is_socket_open_lifecycle (c : ModbusSerialClient) (w : World) :
  (socket c = None -> is_socket_open (mkSt c w) = (Return false, mkSt c w)) /\
  (socket c = None -> open_fault w = None -> config_fault w = None ->
   is_socket_open (snd (connect (mkSt c w)))
   = (Return true, snd (connect (mkSt c w)))) /\
  is_socket_open (snd (close (mkSt c w)))
  = (Return false, snd (close (mkSt c w))).
Proof.
  split; [|split].
  - intros H. unfold is_socket_open, bind, get_self, get_world, ret.
    cbn [self world]. rewrite H. reflexivity.
  - intros Hsock Hopen Hconf.
    rewrite (connect_disconnected c w Hsock), Hopen, Hconf. reflexivity.
  - rewrite close_eq. reflexivity.
Qed.

(** ** [_in_waiting] *)

(** X5. Without a port [_in_waiting] raises AttributeError and touches
    nothing. With a port it returns the number of buffered bytes, which is
    not negative, with either generation of the pyserial API; the buffer,
    the line, the clock and what was written stay as they are, and the
    device is only asked for its count: twice through the [in_waiting]
    property ([hasattr], then [getattr]), once through [inWaiting()]. *)
Theorem in_waiting_counts (c : ModbusSerialClient) (w : World) :
  (socket c = None ->
   _in_waiting (mkSt c w) = (Raise AttributeError, mkSt c w)) /\
  (socket c <> None ->
   exists w',
     _in_waiting (mkSt c w) = (Return (len (rx w)), mkSt c w') /\
     0 <= len (rx w) /\
     rx w' = rx w /\ line w' = line w /\ now w' = now w /\ tx w' = tx w /\
     accesses w' =
     query_accesses (pyserial_api w) (len (rx w)) ++ accesses w).
Proof.
  split.
  - intros H. unfold _in_waiting, bind, get_self. cbn [self].
    rewrite H. reflexivity.
  - intros H. exists (polled w).
    split; [exact (in_waiting_open c w H)|].
    split; [apply len_nonneg|].
    unfold polled, query_accesses.
    destruct (pyserial_api w); repeat split; reflexivity.
Qed.

(** ** What the methods keep *)

Section Preserved.

Variable R : St -> St -> Prop.
Hypothesis R_refl : forall s, R s s.
Hypothesis R_trans : forall s1 s2 s3, R s1 s2 -> R s2 s3 -> R s1 s3.

Lemma preserves_ret {A} (a : A) : preserves R (ret a).
Proof. intros s. apply R_refl. Qed.

Lemma preserves_raise {A} (e : Exception) : preserves R (@raise A e).
Proof. intros s. apply R_refl. Qed.

Lemma preserves_bind {A B} (m : M A) (k : A -> M B) :
  preserves R m -> (forall a, preserves R (k a)) -> preserves R (bind m k).
Proof.
  intros Hm Hk s. unfold bind. specialize (Hm s).
  destruct (m s) as [[a|e|] s1]; cbn [snd] in *; [|exact Hm|exact Hm].
  apply R_trans with s1; [exact Hm|apply Hk].
Qed.

Hypothesis R_in_waiting : preserves R _in_waiting.
Hypothesis R_sleep : forall d, preserves R (time_sleep d).

Lemma wait_loop_preserves (start timeout : Q) :
  forall fuel size more_data,
    preserves R (wait_loop fuel start timeout size more_data).
Proof.
  induction fuel as [|fuel IH]; intros size more_data.
  - intros s. apply R_refl.
  - cbn [wait_loop]. apply preserves_bind.
    + intros s. apply R_refl.
    + intros t. destruct (Qle_bool (t - start) timeout);
        [|apply preserves_ret].
      apply preserves_bind; [exact R_in_waiting|]. intros available.
      destruct ((more_data && negb (truthy_int available))
                || (more_data && (available =? size)));
        [apply preserves_ret|].
      apply preserves_bind; [intros s; apply R_refl|]. intros c.
      apply preserves_bind; [apply R_sleep|]. intros _. apply IH.
Qed.

Lemma wait_for_data_preserves (fuel : nat) :
  preserves R (_wait_for_data fuel).
Proof.
  unfold _wait_for_data. apply preserves_bind; [intros s; apply R_refl|].
  intros c. apply preserves_bind; [intros s; apply R_refl|].
  intros start. apply wait_loop_preserves.
Qed.

End Preserved.

Lemma only_queries_refl (w : World) : only_queries w w.
Proof. repeat split. exists []. split; [reflexivity|constructor]. Qed.

Lemma only_queries_trans (w1 w2 w3 : World) :
  only_queries w1 w2 -> only_queries w2 w3 -> only_queries w1 w3.
Proof.
  intros (Ht & Hh & Hl & qs & Ha & Hq) (Ht' & Hh' & Hl' & qs' & Ha' & Hq').
  repeat split; try congruence.
  exists (qs' ++ qs). split.
  - rewrite Ha', Ha, app_assoc. reflexivity.
  - apply Forall_app. split; assumption.
Qed.

Lemma untouched_refl (s : St) : untouched s s.
Proof. split; [reflexivity|apply only_queries_refl]. Qed.

Lemma untouched_trans (s1 s2 s3 : St) :
  untouched s1 s2 -> untouched s2 s3 -> untouched s1 s3.
Proof.
  intros [H1 H2] [H3 H4]. split; [congruence|].
  eapply only_queries_trans; eassumption.
Qed.

Lemma in_waiting_untouched : preserves untouched _in_waiting.
Proof.
  intros [c w]. unfold _in_waiting, bind, get_self, get_world. cbn [self].
  destruct (socket c); [|apply untouched_refl].
  cbn [world ret].
  destruct (pyserial_api w); cbn; (split; [reflexivity|]); repeat split.
  - exists [InWaiting (len (rx w)); InWaiting (len (rx w))].
    split; [reflexivity|repeat constructor].
  - exists [InWaiting (len (rx w))].
    split; [reflexivity|repeat constructor].
Qed.

Lemma sleep_untouched (d : Q) : preserves untouched (time_sleep d).
Proof.
  intros [c w]. unfold time_sleep.
  destruct (Qle_bool 0 d); [|apply untouched_refl].
  cbn. split; [reflexivity|]. repeat split.
  exists []. split; [reflexivity|constructor].
Qed.

(** X6. [_wait_for_data] only watches: whatever the fuel, the state it
    starts from and its outcome, the client object is unchanged, nothing is
    read from or written to the port, the port is neither opened nor
    closed, nothing is logged, and every access it makes to the device is a
    query of the byte count. *)
Theorem wait_for_data_only_watches (fuel : nat) (s : St) :
  self (snd (_wait_for_data fuel s)) = self s /\
  tx (world (snd (_wait_for_data fuel s))) = tx (world s) /\
  held (world (snd (_wait_for_data fuel s))) = held (world s) /\
  logged (world (snd (_wait_for_data fuel s))) = logged (world s) /\
  exists qs,
    accesses (world (snd (_wait_for_data fuel s))) = qs ++ accesses (world s)
    /\ Forall is_query qs.
Proof.
  destruct (wait_for_data_preserves untouched untouched_refl untouched_trans
              in_waiting_untouched sleep_untouched fuel s)
    as (Hself & Ht & Hh & Hl & Hq).
  auto.
Qed.

(** ** No byte is lost *)

Lemma await_conserves (n : nat) (deadline : Q) (l : list (Q * LineEvent)) :
  Forall arrival l ->
  forall t buf,
    Forall arrival (snd (await n deadline t buf l)) /\
    snd (fst (await n deadline t buf l))
    ++ payload (snd (await n deadline t buf l)) =
    buf ++ payload l.
Proof.
  induction 1 as [|[te ev] l Hev Hl IH]; intros t buf; simpl.
  - destruct (n <=? List.length buf)%nat; simpl; split;
      try constructor; reflexivity.
  - unfold arrival in Hev. simpl in Hev.
    destruct ev as [data|]; [|contradiction].
    destruct (n <=? List.length buf)%nat; simpl.
    + split; [constructor; [exact I|exact Hl]|reflexivity].
    + destruct (Qle_bool te deadline); simpl.
      * destruct (IH (later t te) (buf ++ data)) as (Ha & Hp).
        split; [exact Ha|]. rewrite Hp, app_assoc. reflexivity.
      * split; [constructor; [exact I|exact Hl]|reflexivity].
Qed.

Lemma read_conserves (timeout : Q) (n : Z) (w : World) :
  Forall arrival (line w) ->
  Forall arrival (line (snd (read_world timeout n w))) /\
  fst (read_world timeout n w)
  ++ rx (snd (read_world timeout n w))
  ++ payload (line (snd (read_world timeout n w))) =
  rx w ++ payload (line w).
Proof.
  intros Hw. unfold read_world. cbn [fst snd rx line].
  destruct (await_conserves (Z.to_nat n) (now w + timeout) (line w) Hw
              (now w) (rx w)) as (Ha & Hp).
  split; [exact Ha|]. rewrite app_assoc, firstn_skipn. exact Hp.
Qed.

Lemma conserved_refl (s : St) : conserved s s.
Proof.
  split; [reflexivity|]. intros H. split; [exact H|].
  split; [reflexivity|]. exists []. rewrite app_nil_r. reflexivity.
Qed.

Lemma conserved_trans (s1 s2 s3 : St) :
  conserved s1 s2 -> conserved s2 s3 -> conserved s1 s3.
Proof.
  intros [H1 H2] [H3 H4]. split; [congruence|].
  intros Ha. destruct (H2 Ha) as (Ha2 & Hp2 & m2 & Hm2).
  destruct (H4 Ha2) as (Ha3 & Hp3 & m3 & Hm3).
  split; [exact Ha3|]. split; [congruence|].
  exists (m2 ++ m3). rewrite Hm3, Hm2, app_assoc. reflexivity.
Qed.

Lemma in_waiting_conserved : preserves conserved _in_waiting.
Proof.
  intros [c w]. unfold _in_waiting, bind, get_self, get_world. cbn [self].
  destruct (socket c); [|apply conserved_refl].
  cbn [world ret].
  destruct (pyserial_api w); cbn; (split; [reflexivity|]); intros H;
    (split; [exact H|]); (split; [reflexivity|]);
    exists []; rewrite app_nil_r; reflexivity.
Qed.

Lemma sleep_conserved (d : Q) : preserves conserved (time_sleep d).
Proof.
  intros [c w]. unfold time_sleep.
  destruct (Qle_bool 0 d); [|apply conserved_refl].
  cbn [bind get_world put_world snd self world]. split; [reflexivity|].
  cbn [nap rx line]. intros H.
  apply (deliver_conserves _ (line w) H (rx w)).
Qed.

Lemma wait_for_data_conserved (fuel : nat) :
  preserves conserved (_wait_for_data fuel).
Proof.
  apply wait_for_data_preserves.
  - exact conserved_refl.
  - exact conserved_trans.
  - exact in_waiting_conserved.
  - exact sleep_conserved.
Qed.

(** What [recv] hands over, and what it leaves, on a line that only
    delivers bytes. *)
Lemma recv_conserves (c : ModbusSerialClient) (w : World) (port : Serial)
  (fuel : nat) (size : option Z) (got : bytes) (s' : St) :
  socket c = Some port ->
  Forall arrival (line w) ->
  recv fuel size (mkSt c w) = (Return got, s') ->
  self s' = c /\
  Forall arrival (line (world s')) /\
  got ++ rx (world s') ++ payload (line (world s')) =
  rx w ++ payload (line w).
Proof.
  intros Hsock Hw.
  assert (Hsized : forall n w1 got s',
            Forall arrival (line w1) ->
            recv fuel (Some n) (mkSt c w1) = (Return got, s') ->
            self s' = c /\
            Forall arrival (line (world s')) /\
            got ++ rx (world s') ++ payload (line (world s')) =
            rx w1 ++ payload (line w1)).
  { clear got s'. intros n w1 got s' Hw1.
    rewrite (recv_sized c w1 port fuel n Hsock).
    assert (Hpolled : Forall arrival (line (polled w1)) /\
                      rx (polled w1) ++ payload (line (polled w1)) =
                      rx w1 ++ payload (line w1)).
    { unfold polled.
      destruct (pyserial_api w1); split; assumption || reflexivity. }
    destruct Hpolled as [Hpa Hpp].
    destruct (n >? len (rx w1)).
    - pose proof (wait_for_data_conserved fuel (mkSt c (polled w1))) as Hc.
      destruct (_wait_for_data fuel (mkSt c (polled w1))) as [[x|e|] s2];
        try discriminate.
      destruct Hc as [Hself Hc]. cbn [snd self world] in Hself, Hc.
      destruct (Hc Hpa) as (Ha2 & Hp2 & _).
      rewrite serial_read_eq. intros H. injection H as <- <-.
      cbn [self world]. split; [exact Hself|].
      destruct (read_conserves (ser_timeout port) n (world s2) Ha2)
        as [Ha3 Hp3].
      split; [exact Ha3|]. rewrite <- Hpp, <- Hp2. exact Hp3.
    - rewrite serial_read_eq. intros H. injection H as <- <-.
      cbn [self world]. split; [reflexivity|].
      destruct (read_conserves (ser_timeout port) n (polled w1) Hpa)
        as [Ha3 Hp3].
      split; [exact Ha3|]. rewrite <- Hpp. exact Hp3. }
  destruct size as [n|]; [apply Hsized; exact Hw|].
  rewrite (recv_detect c w port fuel Hsock).
  pose proof (wait_for_data_conserved fuel (mkSt c w)) as Hc.
  destruct (_wait_for_data fuel (mkSt c w)) as [[n|e|] [c1 w1]];
    try discriminate.
  destruct Hc as [Hself Hc]. cbn [snd self world] in Hself, Hc. subst c1.
  destruct (Hc Hw) as (Ha1 & Hp1 & _).
  intros H. destruct (Hsized n w1 got s' Ha1 H) as (Hs & Ha & Hp).
  split; [exact Hs|]. split; [exact Ha|]. congruence.
Qed.

(** X7. On a port whose line only delivers bytes, [recv] loses nothing,
    whatever the size asked for and the fuel: when it returns, the bytes it
    hands over, followed by the bytes left in the buffer and by those the
    line has still to deliver, are the bytes that were buffered followed by
    those the line had to deliver. So the results of successive calls,
    joined, are a prefix of the stream of the sender. *)
Theorem recv_loses_nothing (c : ModbusSerialClient) (w : World)
  (port : Serial) (fuel : nat) (size : option Z) (got : bytes) (s' : St) :
  socket c = Some port ->
  Forall arrival (line w) ->
  recv fuel size (mkSt c w) = (Return got, s') ->
  self s' = c /\
  Forall arrival (line (world s')) /\
  got ++ rx (world s') ++ payload (line (world s')) =
  rx w ++ payload (line w) /\
  got = firstn (List.length got) (rx w ++ payload (line w)).
Proof.
  intros Hsock Hw Hrun.
  destruct (recv_conserves c w port fuel size got s' Hsock Hw Hrun)
    as (Hs & Ha & Hp).
  split; [exact Hs|]. split; [exact Ha|]. split; [exact Hp|].
  rewrite <- Hp, firstn_app, Nat.sub_diag, firstn_all. simpl.
  rewrite app_nil_r. reflexivity.
Qed.

Lemma recv_loses_nothing_witness :
  socket (self paused_state) = Some (configured (client_with_timeout 3)) /\
  Forall arrival (line (world paused_state)) /\
  exists s',
    recv 100 None paused_state = (Return [x01; x02], s') /\
    [x01; x02] ++ rx (world s') ++ payload (line (world s'))
    = [x01; x02; x03].
Proof.
  assert (H1 : socket (self paused_state)
               = Some (configured (client_with_timeout 3))) by reflexivity.
  assert (H2 : Forall arrival (line (world paused_state))).
  { repeat constructor. }
  split; [exact H1|]. split; [exact H2|].
  exists (snd (recv 100 None paused_state)).
  assert (Hrun : recv 100 None
                   (mkSt (self paused_state) (world paused_state))
                 = (Return [x01; x02], snd (recv 100 None paused_state))).
  { vm_compute. reflexivity. }
  split; [exact Hrun|].
  destruct (recv_loses_nothing _ _ _ _ _ _ _ H1 H2 Hrun) as (_ & _ & Hp & _).
  exact Hp.
Defined.

(** ** [send], then [recv] *)

Lemma cleaned_spec (port : Serial) (w : World) :
  rx (cleaned port w) = [] /\
  line (cleaned port w) = line w /\
  now (cleaned port w) = now w.
Proof.
  unfold cleaned. destruct (rx w) as [|b buf] eqn:Hrx.
  - rewrite rx_polled, now_polled. unfold polled.
    destruct (pyserial_api w); auto.
  - rewrite <- Hrx, <- (rx_polled w). cbn [log_record rx line now].
    destruct (read_all (ser_timeout port) (polled w)) as [_ Hrest].
    destruct (read_enough (ser_timeout port) (len (rx (polled w)))
                (polled w) (Z.le_refl _)) as (_ & _ & Hnow & Hline).
    rewrite Hrest, Hnow, Hline, now_polled. unfold polled.
    destruct (pyserial_api w); auto.
Qed.

(** X8. Stale bytes never reach the caller after a [send]. On a port whose
    line only delivers bytes, after the [send] of a non-empty payload
    (which takes no time), whatever a following [recv] returns, together
    with what it leaves in the buffer and on the line, is exactly what the
    line had to deliver when the payload was sent: the bytes that were
    buffered before the [send] are not part of it. *)
Theorem send_then_recv_skips_stale
  (_start_send : ModbusTransactionState -> ModbusTransactionState)
  (c : ModbusSerialClient) (w : World) (port : Serial) (request : bytes)
  (fuel : nat) (size : option Z) (got : bytes) (s2 : St) :
  socket c = Some port ->
  Forall arrival (line w) ->
  request <> [] ->
  recv fuel size (snd (send _start_send request (mkSt c w)))
  = (Return got, s2) ->
  now (world (snd (send _start_send request (mkSt c w)))) = now w /\
  got ++ rx (world s2) ++ payload (line (world s2)) = payload (line w) /\
  got = firstn (List.length got) (payload (line w)).
Proof.
  intros Hsock Hw Hreq.
  rewrite (send_connected _start_send c w port request Hsock Hreq).
  cbn [snd]. intros Hrun.
  destruct (cleaned_spec port w) as (Hrx & Hline & Hnow).
  split; [exact Hnow|].
  assert (Hp : got ++ rx (world s2) ++ payload (line (world s2))
               = payload (line w)).
  { destruct (recv_conserves (set_state c (_start_send (state c)))
                (write_world request (cleaned port w)) port fuel size got s2)
      as (_ & _ & Hp).
    - exact Hsock.
    - cbn [write_world line]. rewrite Hline. exact Hw.
    - exact Hrun.
    - cbn [write_world line rx] in Hp. rewrite Hrx, Hline in Hp. exact Hp. }
  split; [exact Hp|].
  rewrite <- Hp, firstn_app, Nat.sub_diag, firstn_all. simpl.
  rewrite app_nil_r. reflexivity.
Qed.

Lemma send_then_recv_skips_stale_witness :
  socket (self burst_state) = Some (configured (client_with_timeout 3)) /\
  Forall arrival (line (world burst_state)) /\
  [x04] <> [] /\
  fst (recv 100 None
         (snd (send (fun _ => SENDING) [x04]
                 (mkSt (self burst_state)
                    (with_rx (world burst_state) [x05; x06])))))
  = Return [x01; x02; x03].
Proof.
  assert (H1 : socket (self burst_state)
               = Some (configured (client_with_timeout 3))) by reflexivity.
  assert (H2 : Forall arrival
                 (line (with_rx (world burst_state) [x05; x06]))).
  { repeat constructor. }
  assert (H3 : [x04] <> []) by discriminate.
  split; [exact H1|]. split; [exact H2|]. split; [exact H3|].
  set (s1 := snd (send (fun _ => SENDING) [x04]
                    (mkSt (self burst_state)
                       (with_rx (world burst_state) [x05; x06])))).
  destruct (recv 100 None s1) as [o s2] eqn:Hrun.
  assert (Ho : o = Return [x01; x02; x03]).
  { change o with (fst (o, s2)). rewrite <- Hrun. vm_compute. reflexivity. }
  subst o.
  destruct (send_then_recv_skips_stale (fun _ => SENDING)
              (self burst_state) (with_rx (world burst_state) [x05; x06])
              _ [x04] 100 None _ s2 H1 H2 H3 Hrun) as (_ & _ & _).
  reflexivity.
Defined.

(** ** [recv] of bytes that are there *)

(** X9. [recv] with a size that the buffer already holds does not wait: no
    detection is run (fuel plays no part), the clock does not move, the line
    is untouched, and the result is exactly the first [size] bytes of the
    buffer, the others staying for the next call. With a size of 0 or less
    the result is empty and the buffer is left whole. *)
Theorem recv_buffered_is_immediate (c : ModbusSerialClient) (w : World)
  (port : Serial) (fuel : nat) (n : Z) :
  socket c = Some port ->
  n <= len (rx w) ->
  exists w',
    recv fuel (Some n) (mkSt c w)
    = (Return (firstn (Z.to_nat n) (rx w)), mkSt c w') /\
    rx w' = skipn (Z.to_nat n) (rx w) /\
    now w' = now w /\ line w' = line w /\ tx w' = tx w /\
    accesses w' =
    Read n (firstn (Z.to_nat n) (rx w))
    :: query_accesses (pyserial_api w) (len (rx w)) ++ accesses w /\
    (0 <= n -> len (firstn (Z.to_nat n) (rx w)) = n) /\
    (n <= 0 -> firstn (Z.to_nat n) (rx w) = [] /\ rx w' = rx w).
Proof.
  intros Hsock Hn.
  rewrite (recv_sized c w port fuel n Hsock).
  assert (Hno : (n >? len (rx w)) = false).
  { rewrite Z.gtb_ltb. apply Z.ltb_ge. exact Hn. }
  rewrite Hno, serial_read_eq. cbn [self world].
  assert (Hn' : n <= len (rx (polled w))) by (rewrite rx_polled; exact Hn).
  destruct (read_enough (ser_timeout port) n (polled w) Hn')
    as (Hgot & Hrest & Hnow & Hline).
  rewrite rx_polled in Hgot, Hrest. rewrite now_polled in Hnow.
  exists (snd (read_world (ser_timeout port) n (polled w))).
  split; [rewrite Hgot; reflexivity|].
  split; [exact Hrest|]. split; [exact Hnow|].
  split; [rewrite Hline; unfold polled; destruct (pyserial_api w);
          reflexivity|].
  split; [unfold read_world, polled; destruct (pyserial_api w); reflexivity|].
  split.
  - change (accesses (snd (read_world (ser_timeout port) n (polled w))))
      with (Read n (fst (read_world (ser_timeout port) n (polled w)))
            :: accesses (polled w)).
    rewrite Hgot. unfold polled, query_accesses.
    destruct (pyserial_api w); reflexivity.
  - split.
    + intros H0. unfold len in *. rewrite length_firstn. lia.
    + intros H0. rewrite Hrest.
      replace (Z.to_nat n) with O by lia. split; reflexivity.
Qed.

Lemma recv_buffered_is_immediate_witness :
  socket (self burst_state) = Some (configured (client_with_timeout 3)) /\
  2 <= len (rx (with_rx (world burst_state) [x01; x02; x03])) /\
  exists w',
    recv 0 (Some 2)
      (mkSt (self burst_state) (with_rx (world burst_state) [x01; x02; x03]))
    = (Return [x01; x02], mkSt (self burst_state) w') /\
    rx w' = [x03].
Proof.
  assert (H1 : socket (self burst_state)
               = Some (configured (client_with_timeout 3))) by reflexivity.
  assert (H2 : 2 <= len (rx (with_rx (world burst_state) [x01; x02; x03]))).
  { vm_compute. discriminate. }
  split; [exact H1|]. split; [exact H2|].
  destruct (recv_buffered_is_immediate (self burst_state)
              (with_rx (world burst_state) [x01; x02; x03]) _ 0 2 H1 H2)
    as (w' & Hrun & Hrx & _).
  exists w'. split; [exact Hrun|exact Hrx].
Defined.

(** ** The profile of the client *)

Lemma same_self_refl (s : St) : same_self s s.
Proof. reflexivity. Qed.

Lemma same_self_trans (s1 s2 s3 : St) :
  same_self s1 s2 -> same_self s2 s3 -> same_self s1 s3.
Proof. unfold same_self. congruence. Qed.

Lemma recv_same_self (fuel : nat) (size : option Z) :
  preserves same_self (recv fuel size).
Proof.
  assert (Hwait : preserves same_self (_wait_for_data fuel)).
  { intros st. apply wait_for_data_self. }
  assert (Hpoll : preserves same_self _in_waiting).
  { intros st. apply in_waiting_self. }
  unfold recv.
  apply (preserves_bind same_self same_self_trans); [intros st; reflexivity|].
  intros c. destruct (socket c) as [port|]; [|intros st; reflexivity].
  apply (preserves_bind same_self same_self_trans).
  { destruct size as [n|]; [intros st; reflexivity|exact Hwait]. }
  intros n.
  apply (preserves_bind same_self same_self_trans); [exact Hpoll|].
  intros waiting.
  apply (preserves_bind same_self same_self_trans).
  { destruct (n >? waiting); [|intros st; reflexivity].
    apply (preserves_bind same_self same_self_trans); [exact Hwait|].
    intros _ st. reflexivity. }
  intros _.
  apply (preserves_bind same_self same_self_trans); [intros st; reflexivity|].
  intros c'. destruct (socket c') as [port'|]; intros st; reflexivity.
Qed.

Lemma send_self
  (_start_send : ModbusTransactionState -> ModbusTransactionState)
  (request : bytes) (s : St) :
  self (snd (send _start_send request s))
  = set_state (self s) (_start_send (state (self s))).
Proof.
  destruct s as [c w]. unfold send.
  unfold bind at 1. cbn [get_self self].
  unfold bind at 1. cbn [put_self world].
  unfold bind at 1. cbn [get_self self set_state socket].
  destruct (socket c) as [port|]; [|reflexivity].
  destruct (truthy_bytes request); [|reflexivity].
  set (s0 := mkSt (set_state c (_start_send (state c))) w).
  change (set_state c (_start_send (state c))) with (self s0).
  apply (preserves_bind same_self same_self_trans).
  - intros s. apply in_waiting_self.
  - intros waitingbytes.
    apply (preserves_bind same_self same_self_trans).
    + destruct (truthy_int waitingbytes); [|intros s; reflexivity].
      apply (preserves_bind same_self same_self_trans);
        intros; intros s; reflexivity.
    + intros _. apply (preserves_bind same_self same_self_trans);
        intros; intros s; reflexivity.
Qed.

(** X10. Only the constructor writes the profile of a client: [connect],
    [close], [send] and [recv] leave [comm_params], [_t0], the poll
    interval, [inter_byte_timeout] and [silent_interval] as they are, and
    [last_frame_end], unset by the constructor, stays unset (nothing ever
    sets it, and [send] never sleeps on it). [recv] does not change the
    client object at all, and [send] only moves its transaction state. *)
Theorem profile_is_kept
  (_start_send : ModbusTransactionState -> ModbusTransactionState)
  (s : St) (request : bytes) (fuel : nat) (size : option Z) :
  profile_kept s (snd (connect s)) /\
  profile_kept s (snd (close s)) /\
  profile_kept s (snd (send _start_send request s)) /\
  profile_kept s (snd (recv fuel size s)) /\
  self (snd (recv fuel size s)) = self s /\
  self (snd (send _start_send request s))
  = set_state (self s) (_start_send (state (self s))).
Proof.
  assert (Hrefl : forall c, same_profile c c) by (repeat split).
  split; [|split; [|split; [|split; [|split]]]].
  - destruct s as [c w]. unfold profile_kept. cbn [self].
    destruct (socket c) as [port|] eqn:Hsock.
    + rewrite connect_connected by congruence. cbn [snd self]. auto.
    + rewrite (connect_disconnected c w Hsock).
      destruct (open_fault w) as [e|]; [|destruct (config_fault w) as [e|]];
        cbn [snd self]; (split; [repeat split|]);
        cbn [set_socket set_last_frame_end last_frame_end]; auto.
  - destruct s as [c w]. rewrite close_eq. unfold profile_kept.
    cbn [snd self set_socket last_frame_end]. split; [repeat split|auto].
  - unfold profile_kept. rewrite send_self.
    cbn [set_state last_frame_end]. split; [repeat split|auto].
  - unfold profile_kept. rewrite (recv_same_self fuel size s). auto.
  - apply recv_same_self.
  - apply send_self.
Qed.

(** X11. On a port whose line only delivers bytes, [recv(None)] on a
    constructed client runs the detector once and reads at once: it returns
    exactly as many bytes as the detector reports, they are the first bytes
    of the stream (what was buffered, then what the line delivers), and
    after the detector has answered the clock does not move and the only
    accesses are one query of the count and the read. *)
Theorem recv_none_returns_detected (c : ModbusSerialClient) (w : World)
  (port : Serial) (fuel : nat) :
  Constructed c ->
  socket c = Some port ->
  Forall arrival (line w) ->
  (enough_fuel (timeout_connect (comm_params c)) (_recv_interval c)
   <= fuel)%nat ->
  exists n s1 got s',
    _wait_for_data fuel (mkSt c w) = (Return n, s1) /\
    recv fuel None (mkSt c w) = (Return got, s') /\
    len got = n /\
    got = firstn (Z.to_nat n) (rx w ++ payload (line w)) /\
    now (world s') = now (world s1) /\
    accesses (world s') =
    Read n got
    :: query_accesses (pyserial_api w) (len (rx (world s1)))
    ++ accesses (world s1).
Proof.
  intros Hc Hsock Hw Hfuel.
  assert (Hd : (0 < _recv_interval c)%Q).
  { pose proof (constructed_interval c Hc). lra. }
  set (d := _recv_interval c) in *.
  destruct (wait_for_data_returns c w) as (k & n & Hrun);
    [congruence|exact Hd|].
  destruct (Hrun fuel Hfuel) as (Hfb & Hk & l & Hl). fold d in Hfb, Hl.
  destruct (frame_boundary_inv _ _ _ _ _ _ Hfb) as (_ & _ & Hn & _).
  set (w1 := set_accesses (naps d k w) l) in *.
  assert (Hbuf : 0 <= n <= len (rx w1)).
  { unfold w1. cbn [set_accesses rx]. destruct k as [|k].
    - subst n. split; [lia|apply len_nonneg].
    - rewrite polls_nth in Hn by lia. cbn [snd] in Hn. subst n.
      split; [apply len_nonneg|].
      rewrite naps_succ.
      destruct (nap_grows d (naps d k w) (naps_arrival d k w Hw))
        as (_ & more & Hm).
      rewrite Hm. unfold len. rewrite length_app. lia. }
  assert (Hstream : rx w1 ++ payload (line w1) = rx w ++ payload (line w)).
  { unfold w1. cbn [set_accesses rx line]. apply naps_payload. exact Hw. }
  exists n, (mkSt c w1).
  rewrite (recv_detect c w port fuel Hsock), Hl.
  rewrite (recv_sized c w1 port fuel n Hsock).
  assert (Hno : (n >? len (rx w1)) = false).
  { rewrite Z.gtb_ltb. apply Z.ltb_ge. lia. }
  rewrite Hno, serial_read_eq. cbn [self world].
  assert (Hn' : n <= len (rx (polled w1))) by (rewrite rx_polled; lia).
  destruct (read_enough (ser_timeout port) n (polled w1) Hn')
    as (Hgot & _ & Hnow & _).
  rewrite rx_polled in Hgot. rewrite now_polled in Hnow.
  exists (firstn (Z.to_nat n) (rx w1)),
    (mkSt c (snd (read_world (ser_timeout port) n (polled w1)))).
  split; [reflexivity|]. split; [rewrite Hgot; reflexivity|].
  assert (Hlen : (Z.to_nat n <= List.length (rx w1))%nat).
  { unfold len in Hbuf. lia. }
  split; [unfold len; rewrite length_firstn; lia|].
  split.
  - rewrite <- Hstream, firstn_app.
    replace (Z.to_nat n - List.length (rx w1))%nat with O by lia.
    simpl. rewrite app_nil_r. reflexivity.
  - cbn [world]. split; [exact Hnow|].
    change (accesses (snd (read_world (ser_timeout port) n (polled w1))))
      with (Read n (fst (read_world (ser_timeout port) n (polled w1)))
            :: accesses (polled w1)).
    rewrite Hgot. unfold polled, query_accesses, w1.
    cbn [set_accesses pyserial_api rx accesses].
    assert (Hapi : forall j w0, pyserial_api (naps d j w0) = pyserial_api w0).
    { induction j as [|j IH]; intros w0; [reflexivity|].
      cbn [naps]. rewrite IH. reflexivity. }
    rewrite Hapi. destruct (pyserial_api w); reflexivity.
Qed.

Lemma recv_none_returns_detected_witness :
  Constructed (self trickle_state) /\
  socket (self trickle_state)
  = Some (configured (client_with_timeout (1 # 100))) /\
  Forall arrival (line (world trickle_state)) /\
  exists n s1 got s',
    _wait_for_data 100 trickle_state = (Return n, s1) /\
    recv 100 None trickle_state = (Return got, s') /\
    len got = n.
Proof.
  assert (H1 : Constructed (self trickle_state)).
  { exact (constructed_default (1 # 100) (socket (self trickle_state))). }
  assert (H2 : socket (self trickle_state)
               = Some (configured (client_with_timeout (1 # 100)))).
  { reflexivity. }
  assert (H3 : Forall arrival (line (world trickle_state))).
  { repeat constructor. }
  split; [exact H1|]. split; [exact H2|]. split; [exact H3|].
  destruct (recv_none_returns_detected (self trickle_state)
              (world trickle_state) _ 100 H1 H2 H3)
    as (n & s1 & got & s' & Hw & Hr & Hlen & _).
  - apply Nat.leb_le. vm_compute. reflexivity.
  - exists n, s1, got, s'. split; [exact Hw|]. split; [exact Hr|exact Hlen].
Defined.

(** ** How long the wait lasts *)

Lemma lag_naps (d : Q) (k : nat) :
  forall w, lag w = [] -> lag (naps d k w) = [].
Proof.
  induction k as [|k IH]; intros w H; [exact H|].
  cbn [naps]. apply IH. unfold nap. cbn [lag]. rewrite H. reflexivity.
Qed.

(** X12. The timeout is overshot by one poll interval at most. On an open
    port of a constructed client whose sleeps are punctual, with a timeout
    that is not negative, [_wait_for_data] returns no later than
    [timeout_connect] plus one poll interval after it was called, whatever
    the line does. *)
Theorem wait_overshoots_by_one_interval (c : ModbusSerialClient) (w : World)
  (fuel : nat) :
  Constructed c ->
  socket c <> None ->
  lag w = [] ->
  (0 <= timeout_connect (comm_params c))%Q ->
  (enough_fuel (timeout_connect (comm_params c)) (_recv_interval c)
   <= fuel)%nat ->
  exists n s',
    _wait_for_data fuel (mkSt c w) = (Return n, s') /\
    (now (world s') - now w
     <= timeout_connect (comm_params c) + _recv_interval c)%Q.
Proof.
  intros Hc Hopen Hlag Htimeout Hfuel.
  assert (Hd : (0 < _recv_interval c)%Q).
  { pose proof (constructed_interval c Hc). lra. }
  set (d := _recv_interval c) in *.
  set (timeout := timeout_connect (comm_params c)) in *.
  destruct (wait_for_data_returns c w Hopen Hd) as (k & n & Hrun).
  destruct (Hrun fuel Hfuel) as (Hfb & Hk & l & Hl).
  fold d timeout in Hfb, Hl.
  destruct (frame_boundary_inv _ _ _ _ _ _ Hfb) as (_ & Hin & _ & _).
  exists n, (mkSt c (set_accesses (naps d k w) l)).
  split; [exact Hl|]. cbn [world set_accesses now].
  destruct k as [|k].
  - cbn [naps]. lra.
  - specialize (Hin k (Nat.lt_succ_diag_r k)).
    rewrite polls_nth in Hin by lia. cbn [fst] in Hin.
    apply Qle_bool_iff in Hin.
    rewrite naps_succ. unfold nap at 1. cbn [now].
    rewrite (lag_naps d k w Hlag). cbn [oversleep]. lra.
Qed.

Lemma wait_overshoots_by_one_interval_witness :
  Constructed (self idle_state) /\
  socket (self idle_state) <> None /\
  lag (world idle_state) = [] /\
  (0 <= timeout_connect (comm_params (self idle_state)))%Q /\
  exists n s',
    _wait_for_data 100 idle_state = (Return n, s') /\
    (now (world s') - now (world idle_state) <= (1 # 100) + (1 # 480))%Q.
Proof.
  assert (H1 : Constructed (self idle_state)).
  { exact (constructed_default (1 # 100) (socket (self idle_state))). }
  assert (H2 : socket (self idle_state) <> None).
  { vm_compute. discriminate. }
  assert (H3 : lag (world idle_state) = []) by reflexivity.
  assert (H4 : (0 <= timeout_connect (comm_params (self idle_state)))%Q).
  { vm_compute. discriminate. }
  split; [exact H1|]. split; [exact H2|]. split; [exact H3|].
  split; [exact H4|].
  destruct (wait_overshoots_by_one_interval (self idle_state)
              (world idle_state) 100 H1 H2 H3 H4) as (n & s' & Hrun & Ht).
  - apply Nat.leb_le. vm_compute. reflexivity.
  - exists n, s'. split; [exact Hrun|].
    eapply Qle_trans; [exact Ht|]. vm_compute. discriminate.
Defined.

(** ** A pause splits a frame *)

(** X13. The detector takes a pause for the end of the frame. If the first
    [j + 1] polls are made within the timeout and see the count change
    every time, and the next poll finds the same count, not zero, then
    [_wait_for_data] returns that count after [j + 1] sleeps, whatever the
    line has still to deliver. *)
Theorem unchanged_count_ends_wait (c : ModbusSerialClient) (w : World)
  (j fuel : nat) :
  Constructed c ->
  socket c <> None ->
  (elapsed (_recv_interval c) w j <= timeout_connect (comm_params c))%Q ->
  growing 0 (counts (_recv_interval c) w (S j)) = true ->
  len (rx (naps (_recv_interval c) j w)) <> 0 ->
  len (rx (naps (_recv_interval c) (S j) w))
  = len (rx (naps (_recv_interval c) j w)) ->
  (j + 2 <= fuel)%nat ->
  exists l,
    _wait_for_data fuel (mkSt c w) =
    (Return (len (rx (naps (_recv_interval c) j w))),
     mkSt c (set_accesses (naps (_recv_interval c) (S j) w) l)).
Proof.
  intros Hc Hopen Hj Hgrow Hn Hsame Hfuel.
  assert (Hd : (0 <= _recv_interval c)%Q).
  { pose proof (constructed_interval c Hc). lra. }
  set (d := _recv_interval c) in *.
  set (timeout := timeout_connect (comm_params c)) in *.
  assert (Hfb : frame_boundary timeout false 0 (polls d (now w) w fuel)
                = Some (S j, len (rx (naps d j w)))).
  { replace fuel with (S j + S (fuel - j - 2))%nat by lia.
    rewrite (detector_growing d timeout w j _ Hd Hj Hgrow).
    cbn [polls]. rewrite Hsame, (frame_boundary_stable _ _ _ _ Hn).
    f_equal. f_equal. lia. }
  destruct (wait_for_data_refines c w fuel Hopen Hd) as [l Hl].
  fold d timeout in Hl. rewrite Hfb in Hl.
  exists l. exact Hl.
Qed.

Lemma unchanged_count_ends_wait_witness :
  Constructed (self paused_state) /\
  socket (self paused_state) <> None /\
  payload (line (world paused_state)) = [x01; x02; x03] /\
  fst (_wait_for_data 100 paused_state) = Return 2.
Proof.
  assert (H1 : Constructed (self paused_state)).
  { exact (constructed_default 3 (socket (self paused_state))). }
  assert (H2 : socket (self paused_state) <> None).
  { vm_compute. discriminate. }
  split; [exact H1|]. split; [exact H2|]. split; [reflexivity|].
  destruct (unchanged_count_ends_wait (self paused_state)
              (world paused_state) 5 100 H1 H2) as [l Hl].
  - vm_compute. discriminate.
  - vm_compute. reflexivity.
  - vm_compute. discriminate.
  - vm_compute. reflexivity.
  - apply Nat.leb_le. reflexivity.
  - change paused_state
      with (mkSt (self paused_state) (world paused_state)).
    rewrite Hl. reflexivity.
Defined.

(** ** Successive reads *)

Lemma firstn_add {A} (a b : nat) :
  forall l : list A, firstn (a + b) l = firstn a l ++ firstn b (skipn a l).
Proof.
  induction a as [|a IH]; intros l; [reflexivity|].
  destruct l as [|x l]; simpl.
  - rewrite firstn_nil. reflexivity.
  - rewrite IH. reflexivity.
Qed.

(** X15. Two successive [recv] calls with sizes that the buffer holds
    return consecutive bytes: the second result starts where the first one
    ended, the two together are the first [n + m] bytes of the buffer, and
    the bytes after them are still buffered. *)
Theorem recv_twice_is_consecutive (c : ModbusSerialClient) (w : World)
  (port : Serial) (fuel : nat) (n m : Z) :
  socket c = Some port ->
  0 <= n ->
  0 <= m ->
  n + m <= len (rx w) ->
  exists got1 s1 got2 s2,
    recv fuel (Some n) (mkSt c w) = (Return got1, s1) /\
    recv fuel (Some m) s1 = (Return got2, s2) /\
    len got1 = n /\ len got2 = m /\
    got1 ++ got2 = firstn (Z.to_nat (n + m)) (rx w) /\
    rx (world s2) = skipn (Z.to_nat (n + m)) (rx w) /\
    now (world s2) = now w.
Proof.
  intros Hsock Hn Hm Hlen.
  assert (Hstep : forall k w0,
            0 <= k -> k <= len (rx w0) ->
            exists w1,
              recv fuel (Some k) (mkSt c w0)
              = (Return (firstn (Z.to_nat k) (rx w0)), mkSt c w1) /\
              rx w1 = skipn (Z.to_nat k) (rx w0) /\ now w1 = now w0).
  { intros k w0 Hk Hk'.
    rewrite (recv_sized c w0 port fuel k Hsock).
    assert (Hno : (k >? len (rx w0)) = false).
    { rewrite Z.gtb_ltb. apply Z.ltb_ge. exact Hk'. }
    rewrite Hno, serial_read_eq. cbn [self world].
    assert (Hp : k <= len (rx (polled w0))) by (rewrite rx_polled; exact Hk').
    destruct (read_enough (ser_timeout port) k (polled w0) Hp)
      as (Hgot & Hrest & Hnow & _).
    rewrite rx_polled in Hgot, Hrest. rewrite now_polled in Hnow.
    exists (snd (read_world (ser_timeout port) k (polled w0))).
    split; [rewrite Hgot; reflexivity|]. split; assumption. }
  destruct (Hstep n w Hn) as (w1 & Hrun1 & Hrx1 & Hnow1); [lia|].
  assert (Hlen1 : len (rx w1) = len (rx w) - n).
  { rewrite Hrx1. unfold len in *. rewrite length_skipn. lia. }
  destruct (Hstep m w1 Hm) as (w2 & Hrun2 & Hrx2 & Hnow2); [lia|].
  exists (firstn (Z.to_nat n) (rx w)), (mkSt c w1),
    (firstn (Z.to_nat m) (rx w1)), (mkSt c w2).
  split; [exact Hrun1|]. split; [exact Hrun2|].
  split; [unfold len in *; rewrite length_firstn; lia|].
  split; [unfold len in *; rewrite length_firstn; lia|].
  cbn [world]. rewrite Hrx2, Hrx1, Hnow2, Hnow1.
  replace (Z.to_nat (n + m)) with (Z.to_nat n + Z.to_nat m)%nat by lia.
  split; [|split; [|reflexivity]].
  - symmetry. apply firstn_add.
  - rewrite skipn_skipn. f_equal. lia.
Qed.

Lemma recv_twice_is_consecutive_witness :
  socket (self burst_state) = Some (configured (client_with_timeout 3)) /\
  0 <= 1 /\ 0 <= 2 /\
  1 + 2 <= len (rx (with_rx (world burst_state) [x01; x02; x03; x04])) /\
  exists got1 s1 got2 s2,
    recv 0 (Some 1)
      (mkSt (self burst_state)
         (with_rx (world burst_state) [x01; x02; x03; x04]))
    = (Return got1, s1) /\
    recv 0 (Some 2) s1 = (Return got2, s2) /\
    got1 ++ got2 = [x01; x02; x03] /\
    rx (world s2) = [x04].
Proof.
  assert (H1 : socket (self burst_state)
               = Some (configured (client_with_timeout 3))) by reflexivity.
  assert (H2 : 0 <= 1) by discriminate.
  assert (H3 : 0 <= 2) by discriminate.
  assert (H4 : 1 + 2
               <= len (rx (with_rx (world burst_state)
                             [x01; x02; x03; x04]))).
  { vm_compute. discriminate. }
  split; [exact H1|]. split; [exact H2|]. split; [exact H3|].
  split; [exact H4|].
  destruct (recv_twice_is_consecutive (self burst_state)
              (with_rx (world burst_state) [x01; x02; x03; x04]) _ 0 1 2
              H1 H2 H3 H4)
    as (got1 & s1 & got2 & s2 & Hr1 & Hr2 & _ & _ & Hcat & Hrest & _).
  exists got1, s1, got2, s2.
  split; [exact Hr1|]. split; [exact Hr2|].
  split; [exact Hcat|exact Hrest].
Defined.
